(** * voice-data-fetcher: the dialogue manager of [server.py]

    A shallow embedding of [VoiceBotManager] and of the two Flask routes
    [/process_conversation] and [/manual_input], and the properties of
    the natural-language specification checked against it.

    Conventions of the embedding.
    - Text is [string], a sequence of 8-bit characters read as ASCII code
      points.  [str.lower], [str.title], [str.strip], [str.isdigit] and the
      classes [\s], [\d], [\w] of [re] are modelled on the ASCII range,
      where Python's Unicode tables agree with the definitions below;
      characters above 127 are treated as caseless symbols.  Outside
      ASCII Python's case mappings can also change the length of a text;
      a property that depends on the length across [lower] or [title]
      is stated for ASCII texts ([is_ascii]).
    - A Python [dict] with string keys is a [gmap string string].
    - A handler mutates the [user_data] object it receives and may raise
      ([KeyError] on a missing key); handlers therefore live in a small
      state-and-exception monad [M] whose state holds that object.
    - What the program cannot control (the clock, [random.choice], the
      outcome of the pandas calls) is read from an environment [env]. *)

From Stdlib Require Import String Ascii List Bool Arith Lia.
From stdpp Require Import base option gmap strings fin_maps.
Import ListNotations.

Local Open Scope string_scope.
Local Open Scope list_scope.

(** ** Python string primitives *)

Module Py.

Definition code (c : ascii) : nat := nat_of_ascii c.

Definition between (lo hi : nat) (c : ascii) : bool :=
  (lo <=? code c)%nat && (code c <=? hi)%nat.

Definition is_upper : ascii -> bool := between 65 90.
Definition is_lower : ascii -> bool := between 97 122.
Definition is_alpha (c : ascii) : bool := is_upper c || is_lower c.
Definition is_digit : ascii -> bool := between 48 57.
Definition is_alnum (c : ascii) : bool := is_alpha c || is_digit c.

(** [str.isspace] on ASCII: TAB..CR, FS..US and the blank. *)
Definition is_space (c : ascii) : bool :=
  between 9 13 c || between 28 31 c || Ascii.eqb c " ".

(** [\w] *)
Definition is_word (c : ascii) : bool := is_alnum c || Ascii.eqb c "_".

Definition lower_char (c : ascii) : ascii :=
  if is_upper c then ascii_of_nat (code c + 32) else c.

Definition upper_char (c : ascii) : ascii :=
  if is_lower c then ascii_of_nat (code c - 32) else c.

Fixpoint smap (f : ascii -> ascii) (s : string) : string :=
  match s with
  | EmptyString => EmptyString
  | String c s' => String (f c) (smap f s')
  end.

Fixpoint sall (p : ascii -> bool) (s : string) : bool :=
  match s with
  | EmptyString => true
  | String c s' => p c && sall p s'
  end.

Fixpoint sfilter (p : ascii -> bool) (s : string) : string :=
  match s with
  | EmptyString => EmptyString
  | String c s' => if p c then String c (sfilter p s') else sfilter p s'
  end.

Fixpoint take (n : nat) (s : string) : string :=
  match n, s with
  | S n', String c s' => String c (take n' s')
  | _, _ => EmptyString
  end.

Fixpoint drop (n : nat) (s : string) : string :=
  match n, s with
  | S n', String _ s' => drop n' s'
  | _, _ => s
  end.

(** [not s] *)
Definition is_empty (s : string) : bool :=
  match s with EmptyString => true | _ => false end.

(** [s.lower()], on ASCII letters *)
Definition lower (s : string) : string := smap lower_char s.

(** [s.lstrip()], [s.rstrip()], [s.strip()] *)
Fixpoint lstrip (s : string) : string :=
  match s with
  | EmptyString => EmptyString
  | String c s' => if is_space c then lstrip s' else s
  end.

Fixpoint rstrip (s : string) : string :=
  match s with
  | EmptyString => EmptyString
  | String c s' =>
      let r := rstrip s' in
      if is_space c && is_empty r then EmptyString else String c r
  end.

Definition strip (s : string) : string := rstrip (lstrip s).

(** [s.startswith(p)] *)
Fixpoint startswith (p s : string) : bool :=
  match p, s with
  | EmptyString, _ => true
  | String a p', String b s' => Ascii.eqb a b && startswith p' s'
  | String _ _, EmptyString => false
  end.

(** [needle in hay] on strings *)
Fixpoint contains (needle hay : string) : bool :=
  startswith needle hay ||
  match hay with
  | EmptyString => false
  | String _ hay' => contains needle hay'
  end.

(** [x in xs] on a list of strings *)
Definition mem (x : string) (xs : list string) : bool :=
  existsb (String.eqb x) xs.

(** [any(w in text for w in words)] *)
Definition any_in (words : list string) (text : string) : bool :=
  existsb (fun w => contains w text) words.

(** [s.replace(old, new)] for a non-empty [old]: the occurrences are found
    from the left and do not overlap.  [skip] counts the characters of an
    occurrence that are still to be dropped. *)
Fixpoint replace_go (old new : string) (skip : nat) (s : string) : string :=
  match s with
  | EmptyString => EmptyString
  | String c s' =>
      match skip with
      | S k => replace_go old new k s'
      | O =>
          if startswith old s
          then new ++ replace_go old new (String.length old - 1) s'
          else String c (replace_go old new 0 s')
      end
  end.

Definition replace (old new s : string) : string := replace_go old new 0 s.

(** [s.title()], on ASCII letters: a cased character is upper-cased when
    the character before it is not cased, and lower-cased otherwise. *)
Fixpoint title_go (prev_cased : bool) (s : string) : string :=
  match s with
  | EmptyString => EmptyString
  | String c s' =>
      if is_lower c then
        String (if prev_cased then c else upper_char c) (title_go true s')
      else if is_upper c then
        String (if prev_cased then lower_char c else c) (title_go true s')
      else String c (title_go false s')
  end.

Definition title (s : string) : string := title_go false s.

(** [s.isdigit()] *)
Definition isdigit (s : string) : bool := negb (is_empty s) && sall is_digit s.

(** [s * n] *)
Fixpoint repeat_str (s : string) (n : nat) : string :=
  match n with
  | O => EmptyString
  | S n' => s ++ repeat_str s n'
  end.

End Py.

(** ** The fragment of [re] the program uses

    Every pattern of [server.py] is either a sequence of quantified
    character classes (a literal character is a class taken once) or an
    alternation of literals.  Quantifiers are greedy and give characters
    back one at a time; alternatives are tried in the order written; a
    search takes the leftmost match.  No pattern here can match the empty
    string. *)

Module Re.
Import Py.

Record atom := Atom { cls : ascii -> bool; lo : nat; hi : option nat }.

Definition one (p : ascii -> bool) : atom := Atom p 1 (Some 1).
Definition star (p : ascii -> bool) : atom := Atom p 0 None.
Definition plus (p : ascii -> bool) : atom := Atom p 1 None.
Definition at_least (n : nat) (p : ascii -> bool) : atom := Atom p n None.

Definition pattern := list atom.

(** a literal, and a literal under [re.IGNORECASE] *)
Fixpoint lit (s : string) : pattern :=
  match s with
  | EmptyString => []
  | String c s' => one (Ascii.eqb c) :: lit s'
  end.

Fixpoint lit_i (s : string) : pattern :=
  match s with
  | EmptyString => []
  | String c s' =>
      one (fun x => Ascii.eqb (lower_char x) (lower_char c)) :: lit_i s'
  end.

(** length of the longest run of [p]-characters at the head of [s],
    no longer than [cap] when there is one *)
Fixpoint span (p : ascii -> bool) (cap : option nat) (s : string) : nat :=
  match s with
  | EmptyString => 0
  | String c s' =>
      match cap with
      | Some O => 0
      | Some (S k) => if p c then S (span p (Some k) s') else 0
      | None => if p c then S (span p None s') else 0
      end
  end.

(** A match is the list of the pieces taken by each atom, and the rest. *)
Definition result := option (list string * string).

(** give back: take [k] characters, then [k-1], ... down to [low] *)
Fixpoint backoff (cont : string -> result) (s : string) (low k : nat) : result :=
  if (k <? low)%nat then None
  else
    match cont (drop k s) with
    | Some (gs, rest) => Some (take k s :: gs, rest)
    | None =>
        match k with
        | O => None
        | S k' => backoff cont s low k'
        end
    end.

(** match [p] at the head of [s]; [fin] is the condition at the end of the
    pattern (always true, or [$]) *)
Fixpoint match_at (p : pattern) (fin : string -> bool) (s : string) : result :=
  match p with
  | [] => if fin s then Some ([], s) else None
  | a :: p' => backoff (match_at p' fin) s (lo a) (span (cls a) (hi a) s)
  end.

Definition anywhere (_ : string) : bool := true.

(** [$]: at the end, or just before a final newline *)
Definition dollar (s : string) : bool :=
  is_empty s || String.eqb s (String (ascii_of_nat 10) EmptyString).

(** [(p1|p2|...)] as a whole pattern *)
Fixpoint match_alt (alts : list pattern) (s : string) : result :=
  match alts with
  | [] => None
  | p :: alts' =>
      match match_at p anywhere s with
      | Some r => Some r
      | None => match_alt alts' s
      end
  end.

Definition matched (gs : list string) : string := String.concat "" gs.

(** [re.sub]: [m] matches at a position, [repl] builds the replacement
    from the pieces. *)
Fixpoint sub_go (m : string -> result) (repl : list string -> string)
    (skip : nat) (s : string) : string :=
  match s with
  | EmptyString => EmptyString
  | String c s' =>
      match skip with
      | S k => sub_go m repl k s'
      | O =>
          match m s with
          | Some (gs, _) =>
              match String.length (matched gs) with
              | O => String c (sub_go m repl 0 s')
              | S n => repl gs ++ sub_go m repl n s'
              end
          | None => String c (sub_go m repl 0 s')
          end
      end
  end.

Definition sub (m : string -> result) (repl : list string -> string)
    (s : string) : string := sub_go m repl 0 s.

(** [re.findall] for a pattern without groups *)
Fixpoint findall_go (m : string -> result) (skip : nat) (s : string)
    : list string :=
  match s with
  | EmptyString => []
  | String c s' =>
      match skip with
      | S k => findall_go m k s'
      | O =>
          match m s with
          | Some (gs, _) =>
              match String.length (matched gs) with
              | O => findall_go m 0 s'
              | S n => matched gs :: findall_go m n s'
              end
          | None => findall_go m 0 s'
          end
      end
  end.

Definition findall (m : string -> result) (s : string) : list string :=
  findall_go m 0 s.

(** [re.match] as a truth value *)
Definition is_match (r : result) : bool :=
  match r with Some _ => true | None => false end.

End Re.

Import Py Re.

(* from here on [++] joins strings; lists are joined with [%list] *)
Local Open Scope string_scope.

(** ** [VoiceBotManager]: phrase lists and tables *)

Definition positive_responses : list string :=
  [ "yes"; "yeah"; "yep"; "yup"; "correct"; "right"; "true"; "confirm";
    "ok"; "okay"; "perfect"; "exactly"; "absolutely"; "definitely";
    "sure"; "good"; "great"; "fine"; "proceed"; "go ahead"; "continue";
    "that's right"; "sounds good"; "looks good"; "all good"; "excellent" ].

Definition negative_responses : list string :=
  [ "no"; "nope"; "not"; "wrong"; "incorrect"; "false"; "negative";
    "not right"; "not correct"; "not perfect"; "that's wrong";
    "not good"; "bad"; "fix it"; "change it"; "redo"; "again" ].

Definition empty_user_data : gmap string string :=
  <["name" := ""]> (<["company" := ""]> (<["email" := ""]>
    (<["phone" := ""]> (<["country" := ""]> ∅)))).

Definition country_codes : gmap string string :=
  list_to_map
  [ ("usa", "+1"); ("united states", "+1"); ("america", "+1"); ("us", "+1");
    ("india", "+91"); ("uk", "+44"); ("united kingdom", "+44"); ("britain", "+44");
    ("canada", "+1"); ("australia", "+61"); ("germany", "+49"); ("france", "+33");
    ("japan", "+81"); ("china", "+86"); ("brazil", "+55"); ("russia", "+7");
    ("italy", "+39"); ("spain", "+34"); ("netherlands", "+31"); ("sweden", "+46");
    ("norway", "+47"); ("denmark", "+45"); ("finland", "+358"); ("poland", "+48");
    ("turkey", "+90"); ("south africa", "+27"); ("egypt", "+20"); ("nigeria", "+234");
    ("kenya", "+254"); ("ghana", "+233"); ("uae", "+971"); ("saudi arabia", "+966");
    ("singapore", "+65"); ("malaysia", "+60"); ("thailand", "+66"); ("philippines", "+63");
    ("indonesia", "+62"); ("vietnam", "+84"); ("south korea", "+82"); ("taiwan", "+886") ].

(** ** Intent classifiers *)

Definition is_positive_response (text : string) : bool :=
  let text_lower := strip (lower text) in
  if mem text_lower positive_responses then true
  else any_in positive_responses text_lower.

Definition is_negative_response (text : string) : bool :=
  let text_lower := strip (lower text) in
  if mem text_lower negative_responses then true
  else any_in negative_responses text_lower.

Definition off_topic_keywords : list string :=
  [ "weather"; "time"; "date"; "news"; "sports"; "music"; "movie";
    "food"; "restaurant"; "travel"; "joke"; "story"; "game" ].

Definition is_off_topic_question (text : string) : bool :=
  any_in off_topic_keywords (lower text).

(** ** Field extractors *)

Definition skip_phrases : list string :=
  [ "what's your name"; "your name is"; "what is your name";
    "tell me your name"; "can you tell me"; "please tell me" ].

Definition erase (_ : list string) : string := "".

Definition letter_or_space (c : ascii) : bool := is_alpha c || is_space c.

Definition extract_name (text : string) : option string :=
  if any_in skip_phrases (lower text) then None
  else
    let name := strip text in
    let name :=
      strip (sub (match_alt (map lit_i ["my name is"; "i am"; "i'm"; "call me"]))
                 erase name) in
    if (String.length name <? 2)%nat || (50 <? String.length name)%nat
       || negb (is_match (match_at [plus letter_or_space] dollar name))
    then None
    else Some (title name).

Definition extract_company (text : string) : option string :=
  if is_empty text || (String.length (strip text) <? 2)%nat then None
  else
    let company := strip text in
    let company :=
      strip (sub (match_alt (map lit_i
                   ["i work at"; "my company is"; "company is"; "i'm from";
                    "i work for"; "company"]))
                 erase company) in
    if (String.length company <? 2)%nat || (100 <? String.length company)%nat
    then None
    else Some (title company).

(** the [replacements] dict of [extract_email], in insertion order *)
Definition replacements : list (string * string) :=
  [ (" at the rate ", "@"); (" at ", "@"); (" @ ", "@"); (" add ", "@");
    (" dot ", "."); (" period ", "."); (" point ", "."); (" full stop ", ".");
    (" gmail ", "gmail"); (" g mail ", "gmail"); (" jemail ", "gmail");
    (" yahoo ", "yahoo"); (" ya who ", "yahoo"); (" yahu ", "yahoo");
    (" hotmail ", "hotmail"); (" hot mail ", "hotmail");
    (" outlook ", "outlook"); (" out look ", "outlook");
    (" underscore ", "_"); (" dash ", "-"); (" hyphen ", "-");
    ("dot com", ".com"); ("dot org", ".org"); ("dot net", ".net"); ("dot in", ".in");
    ("gmail dot com", "gmail.com"); ("yahoo dot com", "yahoo.com");
    ("hotmail dot com", "hotmail.com"); ("outlook dot com", "outlook.com") ].

(** [for spoken, actual in table.items(): text = text.replace(spoken, actual)] *)
Definition apply_replacements (table : list (string * string)) (text : string)
    : string :=
  fold_left (fun t kv => replace (fst kv) (snd kv) t) table text.

Definition is_char (a c : ascii) : bool := Ascii.eqb a c.

Definition local_char (c : ascii) : bool :=
  is_alnum c || is_char "." c || is_char "_" c || is_char "-" c.

Definition domain_char (c : ascii) : bool :=
  is_alnum c || is_char "." c || is_char "-" c.

(** [[a-zA-Z0-9][a-zA-Z0-9._-]*@[a-zA-Z0-9][a-zA-Z0-9.-]*\.[a-zA-Z]{2,}] *)
Definition email_shape : pattern :=
  [ one is_alnum; star local_char; one (is_char "@");
    one is_alnum; star domain_char; one (is_char "."); at_least 2 is_alpha ].

Definition extract_email (text : string) : option string :=
  if is_empty text || (String.length (strip text) <? 5)%nat then None
  else
    let text := strip (lower text) in
    let text := apply_replacements replacements text in
    let text :=
      sub (match_at [star is_space; one (is_char "@"); star is_space] anywhere)
          (fun _ => "@") text in
    let text :=
      sub (match_at [star is_space; one (is_char "."); star is_space] anywhere)
          (fun _ => ".") text in
    let email_candidate := sub (match_at [plus is_space] anywhere) erase text in
    if is_match (match_at email_shape dollar email_candidate)
    then Some (lower email_candidate)
    else
      match findall (match_at email_shape anywhere) text with
      | m :: _ => Some (lower m)
      | [] => None
      end.

(** the [number_words] dict of [extract_phone], in insertion order *)
Definition number_words : list (string * string) :=
  [ ("zero", "0"); ("one", "1"); ("two", "2"); ("three", "3"); ("four", "4");
    ("five", "5"); ("six", "6"); ("seven", "7"); ("eight", "8"); ("nine", "9");
    ("oh", "0"); ("o", "0") ].

(** [d.get(k, default)] on an ordered table *)
Fixpoint table_get (d : list (string * string)) (k default : string) : string :=
  match d with
  | [] => default
  | (k', v) :: d' => if String.eqb k' k then v else table_get d' k default
  end.

(** [lambda m: number_words.get(m.group(1), m.group(1)) * n], the group
    being the last piece of the match *)
Definition repeat_word (n : nat) (gs : list string) : string :=
  let g := List.last gs "" in
  repeat_str (table_get number_words g g) n.

Definition digit_or_plus (c : ascii) : bool := is_digit c || is_char "+" c.

Definition in_range_8_15 (n : nat) : bool := (8 <=? n)%nat && (n <=? 15)%nat.

Definition extract_phone (text : string) : option string :=
  if is_empty text || (String.length (strip text) <? 3)%nat then None
  else
    let text := strip (lower text) in
    let text :=
      sub (match_at (lit "plus" ++ [plus is_space])%list anywhere)
          (fun _ => "+") text in
    let text :=
      sub (match_at (lit "country" ++ [plus is_space] ++ lit "code"
                       ++ [plus is_space])%list anywhere)
          (fun _ => "+") text in
    let text :=
      sub (match_at (lit "double" ++ [plus is_space; plus is_word])%list anywhere)
          (repeat_word 2) text in
    let text :=
      sub (match_at (lit "triple" ++ [plus is_space; plus is_word])%list anywhere)
          (repeat_word 3) text in
    let text := apply_replacements number_words text in
    let text :=
      sub (match_at [one is_digit; plus is_space; one is_digit] anywhere)
          (fun gs => nth 0 gs "" ++ nth 2 gs "") text in
    let phone_chars :=
      sub (match_at [one (fun c => negb (digit_or_plus c))] anywhere) erase text in
    if startswith "+" phone_chars then
      let digits_part := drop 1 phone_chars in
      if in_range_8_15 (String.length digits_part) then Some phone_chars
      else None
    else if in_range_8_15 (String.length phone_chars) then Some phone_chars
    else None.

Definition validate_phone (phone : string) : bool :=
  if is_empty phone then false
  else if startswith "+" phone then
    let digits_part := drop 1 phone in
    in_range_8_15 (String.length digits_part) && isdigit digits_part
  else in_range_8_15 (String.length phone) && isdigit phone.

Definition extract_country (text : string) : option string :=
  if is_empty text || (String.length (strip text) <? 2)%nat then None
  else
    let country := lower (strip text) in
    let country :=
      strip (sub (match_alt (map lit_i
                   ["i am from"; "i'm from"; "from"; "country is"; "my country"]))
                 erase country) in
    if (String.length country <? 2)%nat || (50 <? String.length country)%nat
    then None
    else Some (title country).

Definition format_phone_with_country (phone country : string) : string :=
  if is_empty phone || is_empty country then phone
  else if startswith "+" phone then phone
  else
    let country_lower := lower country in
    let country_code := default "" (country_codes !! country_lower) in
    if negb (is_empty country_code) then country_code ++ phone
    else phone.

(** ** Mutable state, exceptions and the environment *)

Inductive exn :=
| KeyError (key : string)
| ValueError (what : string).

(** what the pandas calls of [save_visitor_data] do: the row is appended
    to the existing sheet, a new sheet is started, or a call raises *)
Inductive io_outcome := Appended | Fresh | Failed.

Record env := Env {
  now : string;            (* datetime.now().strftime(...) *)
  choice : nat;            (* the index drawn by random.choice *)
  pandas : io_outcome
}.

Record state := State {
  user_data : gmap string string;             (* the dict the handler was given *)
  excel : option (list (gmap string string)); (* EXCEL_FILE, when it exists *)
  sink_calls : list (gmap string string)      (* arguments of save_visitor_data so far *)
}.

Inductive res (A : Type) :=
| Ok (a : A)
| Raise (e : exn).
Arguments Ok {A} a.
Arguments Raise {A} e.

Definition M (A : Type) : Type := env -> state -> res A * state.

Definition ret {A} (a : A) : M A := fun _ s => (Ok a, s).

Definition bind {A B} (m : M A) (k : A -> M B) : M B :=
  fun e s =>
    match m e s with
    | (Ok a, s') => k a e s'
    | (Raise x, s') => (Raise x, s')
    end.

Notation "'let*' x ':=' m 'in' k" := (bind m (fun x => k))
  (at level 10, x name, m at level 100, k at level 200).

(** [user_data[key]] *)
Definition getitem (key : string) : M string :=
  fun _ s =>
    match user_data s !! key with
    | Some v => (Ok v, s)
    | None => (Raise (KeyError key), s)
    end.

(** [user_data[key] = value] *)
Definition setitem (key value : string) : M unit :=
  fun _ s => (Ok tt, State (<[key := value]> (user_data s)) (excel s) (sink_calls s)).

Definition ask : M env := fun e s => (Ok e, s).

(** ** Turn output: the dict a handler returns *)

Record turn := Turn {
  bot_response : string;
  new_state : string;
  updated_data : gmap string string;
  current_field : string;
  awaiting_confirmation : bool;
  show_manual_input : option bool;   (* the key is absent in most replies *)
  manual_field : option string
}.

(** [{'bot_response': r, 'new_state': st, 'updated_data': user_data,
      'current_field': f, 'awaiting_confirmation': a}] *)
Definition reply (r st f : string) (a : bool) : M turn :=
  fun _ s => (Ok (Turn r st (user_data s) f a None None), s).

(** the same with ['show_manual_input': True, 'manual_field': f] and
    ['awaiting_confirmation': False] *)
Definition reply_manual (r st f : string) : M turn :=
  fun _ s => (Ok (Turn r st (user_data s) f false (Some true) (Some f)), s).

(** Python truth value of an extractor's result: [None] and [''] are false *)
Definition truthy (o : option string) : option string :=
  match o with
  | Some v => if is_empty v then None else Some v
  | None => None
  end.

(** ** The sink *)

Definition save_visitor_data : M unit :=
  fun e s =>
    let given := user_data s in
    let row := <["event" := "Community Day"]> (<["timestamp" := now e]> given) in
    let calls := (sink_calls s ++ [given])%list in
    match pandas e with
    | Appended =>
        let sheet := match excel s with Some rows => (rows ++ [row])%list | None => [row] end in
        (Ok tt, State row (Some sheet) calls)
    | Fresh => (Ok tt, State row (Some [row]) calls)
    | Failed => (Ok tt, State row (excel s) calls)   (* except Exception: logged *)
    end.

(** ** State handlers *)

Definition handler := string -> string -> bool -> M turn.

Definition off_topic_responses : list string :=
  [ "That's interesting! But let's focus on getting your details for the AWS Community Day event. How are you today?";
    "I appreciate your question! However, I'm here to help collect your information for our event. How are you feeling today?";
    "Great question! Let's get back to our registration process. How are you doing?" ].

Definition handle_off_topic (user_input : string) : M turn :=
  let* e := ask in
  let response :=
    nth (choice e mod List.length off_topic_responses) off_topic_responses "" in
  reply response "greeting" "" false.

Definition positive_words : list string :=
  [ "good"; "fine"; "great"; "well"; "excellent"; "awesome"; "fantastic";
    "ok"; "okay" ].

Definition negative_words : list string :=
  [ "not good"; "bad"; "terrible"; "awful"; "not well"; "sick"; "tired";
    "stressed"; "not doing good"; "not great" ].

Definition handle_greeting : handler := fun user_input _ _ =>
  if is_off_topic_question user_input then handle_off_topic user_input
  else
    let user_lower := lower user_input in
    if any_in negative_words user_lower then
      reply "I'm sorry to hear that. I hope our event can brighten your day! Let's get you registered. What's your name?"
            "collect_name" "name" false
    else if any_in positive_words user_lower then
      reply "Wonderful! Let's get started. What's your name?"
            "collect_name" "name" false
    else
      reply "Hello! How are you doing today?" "greeting" "" false.

Definition handle_name_collection : handler := fun user_input _ awaiting =>
  if awaiting then
    if is_positive_response user_input then
      let* name := getitem "name" in
      reply ("Excellent! Which company do you work for, " ++ name ++ "?")
            "collect_company" "company" false
    else if is_negative_response user_input then
      let* _ := setitem "name" "" in
      reply_manual "No problem! Please tell me your correct name, or if you prefer, you can type it manually."
                   "collect_name" "name"
    else
      reply "I didn't understand. Is your name correct? Please say yes or no."
            "collect_name" "name" true
  else
    match truthy (extract_name user_input) with
    | Some name =>
        let* _ := setitem "name" name in
        reply ("I heard your name as " ++ name ++ ". Is that correct?")
              "collect_name" "name" true
    | None =>
        reply_manual "I couldn't catch your name clearly. Could you please speak your name slowly, or type it manually?"
                     "collect_name" "name"
    end.

Definition handle_company_collection : handler := fun user_input _ awaiting =>
  if awaiting then
    if is_positive_response user_input then
      reply "Perfect! Now, what's your email address?"
            "collect_email" "email" false
    else if is_negative_response user_input then
      let* _ := setitem "company" "" in
      reply_manual "Let me get that right. Which company do you work for? You can speak it or type it manually."
                   "collect_company" "company"
    else
      reply "Is your company name correct? Please say yes or no."
            "collect_company" "company" true
  else
    match truthy (extract_company user_input) with
    | Some company =>
        if (1 <? String.length (strip company))%nat then
          let* _ := setitem "company" company in
          reply ("I heard your company as " ++ company ++ ". Is that correct?")
                "collect_company" "company" true
        else
          reply_manual "Could you please tell me your company name clearly, or type it manually?"
                       "collect_company" "company"
    | None =>
        reply_manual "Could you please tell me your company name clearly, or type it manually?"
                     "collect_company" "company"
    end.

Definition handle_email_collection : handler := fun user_input _ awaiting =>
  if awaiting then
    if is_positive_response user_input then
      reply "Excellent! Now, what's your phone number?"
            "collect_phone" "phone" false
    else if is_negative_response user_input then
      let* _ := setitem "email" "" in
      reply_manual "Let me get your email right. Please speak it clearly like 'john at gmail dot com', or type it manually."
                   "collect_email" "email"
    else
      reply "Is your email address correct? Please say yes or no."
            "collect_email" "email" true
  else
    match truthy (extract_email user_input) with
    | Some email =>
        let* _ := setitem "email" email in
        reply ("I heard your email as " ++ email ++ ". Is that correct?")
              "collect_email" "email" true
    | None =>
        reply_manual "I couldn't catch your email clearly. Please speak it like 'john at gmail dot com', or type it manually."
                     "collect_email" "email"
    end.

Definition handle_phone_collection : handler := fun user_input _ awaiting =>
  if awaiting then
    if is_positive_response user_input then
      reply "Great! Which country are you from? This helps me format your number correctly."
            "collect_country" "country" false
    else if is_negative_response user_input then
      let* _ := setitem "phone" "" in
      reply_manual "No problem! Please provide your correct phone number."
                   "collect_phone" "phone"
    else
      reply "Is your phone number correct? Please say yes or no."
            "collect_phone" "phone" true
  else
    match truthy (extract_phone user_input) with
    | Some phone =>
        if validate_phone phone then
          let* _ := setitem "phone" phone in
          reply ("I heard your phone number as " ++ phone ++ ". Is that correct?")
                "collect_phone" "phone" true
        else
          reply_manual "Please speak your phone number digit by digit, like 'nine eight seven six five four three two one'."
                       "collect_phone" "phone"
    | None =>
        reply_manual "Please speak your phone number digit by digit, like 'nine eight seven six five four three two one'."
                     "collect_phone" "phone"
    end.

Definition handle_country_collection : handler := fun user_input _ awaiting =>
  if awaiting then
    if is_positive_response user_input then
      let* phone := getitem "phone" in
      let* country := getitem "country" in
      let formatted_phone := format_phone_with_country phone country in
      let* _ := setitem "phone" formatted_phone in
      let* name := getitem "name" in
      let* company := getitem "company" in
      let* email := getitem "email" in
      let* phone := getitem "phone" in
      let summary :=
        "Perfect! Let me confirm your details: Name: " ++ name
        ++ ", Company: " ++ company ++ ", Email: " ++ email
        ++ ", Phone: " ++ phone ++ ". Should I submit this information?" in
      reply summary "final_confirmation" "" false
    else if is_negative_response user_input then
      let* _ := setitem "country" "" in
      reply_manual "Which country are you from?" "collect_country" "country"
    else
      reply "Is your country correct? Please say yes or no."
            "collect_country" "country" true
  else
    match truthy (extract_country user_input) with
    | Some country =>
        let* _ := setitem "country" country in
        reply ("I heard " ++ country ++ ". Is that correct?")
              "collect_country" "country" true
    | None =>
        reply_manual "Could you please tell me your country name clearly?"
                     "collect_country" "country"
    end.

Definition handle_final_confirmation : handler := fun user_input _ _ =>
  if is_positive_response user_input then
    let* _ := save_visitor_data in
    reply "Fantastic! Your information has been successfully submitted. Thank you for visiting Operisoft at the Community Day event. We'll be in touch soon!"
          "finished" "" false
  else if is_negative_response user_input then
    ret (Turn "No problem! Let's start fresh. What's your name?"
              "collect_name" empty_user_data "name" false None None)
  else
    reply "Should I submit your information? Please say yes to submit or no to start over."
          "final_confirmation" "" false.

Definition conversation_states : gmap string handler :=
  list_to_map
  [ ("greeting", handle_greeting);
    ("collect_name", handle_name_collection);
    ("collect_company", handle_company_collection);
    ("collect_email", handle_email_collection);
    ("collect_phone", handle_phone_collection);
    ("collect_country", handle_country_collection);
    ("final_confirmation", handle_final_confirmation) ].

Definition process_conversation
    (user_input state current_field : string) (awaiting : bool) : M turn :=
  let handler := default handle_greeting (conversation_states !! state) in
  handler user_input current_field awaiting.

(** ** The two routes *)

Module Route.

(** what a route sends back: [jsonify(turn)] with status 200, or
    [{'error': ...}] with status 500 *)
Inductive response :=
| Json (t : turn)
| ServerError (error : string).

(** the JSON body of [/process_conversation]; every key may be absent *)
Record conversation_request := ConversationRequest {
  req_user_input : option string;
  req_conversation_state : option string;
  req_user_data : option (gmap string string);
  req_current_field : option string;
  req_awaiting_confirmation : option bool
}.

(** the [except] branch of [/process_conversation], with the values the
    local variables hold when it is entered *)
Definition apology (state : string) (user_data : gmap string string)
    (current_field : string) : turn :=
  Turn "I apologize, there was an error. Could you please repeat that?"
       state user_data current_field false None None.

(** [data] is [None] when the request carries no JSON object: reading it
    raises inside the [try], with the defaults still in place.  When the
    handler raises, the [except] branch answers with the [user_data]
    object as the handler left it. *)
Definition process_conversation (data : option conversation_request)
    (e : env) (file : option (list (gmap string string)))
    (calls : list (gmap string string)) : response * state :=
  match data with
  | None => (Json (apology "greeting" ∅ ""), State ∅ file calls)
  | Some d =>
      let user_input := default "" (req_user_input d) in
      let state := default "greeting" (req_conversation_state d) in
      let user_data := default ∅ (req_user_data d) in
      let current_field := default "" (req_current_field d) in
      let awaiting := default false (req_awaiting_confirmation d) in
      match process_conversation user_input state current_field awaiting
              e (State user_data file calls) with
      | (Ok result, s) => (Json result, s)
      | (Raise _, State mutated file' calls') =>
          (Json (apology state mutated current_field), State mutated file' calls')
      end
  end.

(** the JSON body of [/manual_input] *)
Record manual_request := ManualRequest {
  req_field : option string;
  req_value : option string;
  req_manual_user_data : option (gmap string string)
}.

Definition field_order : list string :=
  [ "name"; "company"; "email"; "phone"; "country" ].

(** [xs.index(x)], raising [ValueError] when [x] is absent *)
Fixpoint index (xs : list string) (x : string) : option nat :=
  match xs with
  | [] => None
  | y :: xs' => if String.eqb y x then Some 0 else S <$> index xs' x
  end.

Definition manual_input_body (field value : string) : M turn :=
  if negb (is_empty field) && negb (is_empty (strip value)) then
    let* _ := setitem field (strip value) in
    match index field_order field with
    | None => fun _ s => (Raise (ValueError field), s)
    | Some current_index =>
        if (current_index <? List.length field_order - 1)%nat then
          let next_field := nth (current_index + 1) field_order "" in
          reply ("Thank you! Now, what's your " ++ next_field ++ "?")
                ("collect_" ++ next_field) next_field false
        else
          let* name := getitem "name" in
          let* company := getitem "company" in
          let* email := getitem "email" in
          let* phone := getitem "phone" in
          let summary :=
            "Perfect! Let me confirm: Name: " ++ name ++ ", Company: " ++ company
            ++ ", Email: " ++ email ++ ", Phone: " ++ phone
            ++ ". Should I submit this?" in
          reply summary "final_confirmation" "" false
    end
  else
    reply ("Please enter a valid " ++ field ++ ".") ("collect_" ++ field) field false.

(** the body reads neither the environment nor the sheet; it is run on a
    state that holds the request's [user_data] *)
Definition handle_manual_input (data : option manual_request) : response :=
  match data with
  | None => ServerError "Failed to process manual input"
  | Some d =>
      let field := default "" (req_field d) in
      let value := default "" (req_value d) in
      let user_data := default ∅ (req_manual_user_data d) in
      match manual_input_body field value (Env "" 0 Failed) (State user_data None []) with
      | (Ok t, _) => Json t
      | (Raise _, _) => ServerError "Failed to process manual input"
      end
  end.

End Route.

(** * Vocabulary of the properties *)

(** ** The confirmation prompt *)

(** the value stored under [key] occurs in the reply text *)
Definition restates (t : turn) (key : string) : bool :=
  match updated_data t !! key with
  | Some v => contains v (bot_response t)
  | None => false
  end.

(** the two ways a turn enters [final_confirmation] with a summary *)
Inductive confirmation_prompt : turn -> Prop :=
| prompt_by_country user_input cf awaiting e s t s' :
    handle_country_collection user_input cf awaiting e s = (Ok t, s') ->
    new_state t = "final_confirmation" ->
    confirmation_prompt t
| prompt_by_manual data t :
    Route.handle_manual_input data = Route.Json t ->
    new_state t = "final_confirmation" ->
    confirmation_prompt t.

(** a record with all five fields, for the examples *)
Definition full_record : gmap string string :=
  <["name" := "Ann"]> (<["company" := "Acme"]> (<["email" := "ann@acme.io"]>
    (<["phone" := "9876543210"]> (<["country" := "France"]> ∅)))).

Definition yes_to_country : res turn * state :=
  handle_country_collection "yes" "country" true (Env "" 0 Failed)
    (State full_record None []).

Definition typed_country : Route.response :=
  Route.handle_manual_input
    (Some (Route.ManualRequest (Some "country") (Some "France")
             (Some (delete "country" full_record)))).

(** ** Confirmation handlers *)


(** the state a handler's result enters, when the handler returns *)
Definition new_state_of (r : res turn * state) : option string :=
  match fst r with
  | Ok t => Some (new_state t)
  | Raise _ => None
  end.

(** ** The dispatch table *)

Definition known_states : list string :=
  [ "greeting"; "collect_name"; "collect_company"; "collect_email";
    "collect_phone"; "collect_country"; "final_confirmation" ].

(** the request of a turn *)
Definition request (user_input state : string) (record : gmap string string)
    (cf : string) (awaiting : bool) : option Route.conversation_request :=
  Some (Route.ConversationRequest (Some user_input) (Some state) (Some record)
          (Some cf) (Some awaiting)).

(** ** The final confirmation *)

Definition thank_you : string :=
  "Fantastic! Your information has been successfully submitted. Thank you for visiting Operisoft at the Community Day event. We'll be in touch soon!".

(** the record as [save_visitor_data] stamps it *)
Definition stamped (e : env) (record : gmap string string) : gmap string string :=
  <["event" := "Community Day"]> (<["timestamp" := now e]> record).

(** the same environment with another outcome of the pandas calls *)
Definition with_pandas (io : io_outcome) (e : env) : env :=
  Env (now e) (choice e) io.

Definition not_right_at_final : res turn * state :=
  handle_final_confirmation "not right" "" false (Env "" 0 Appended)
    (State full_record None []).

(** ** The substitution table of the email extractor *)

Definition spoken_email : string := "John DOT Smith AT gmail DOT com".

(** no entry of the table occurs inside a later one: a longer, more
    specific pattern is always applied before the generic pattern it
    contains *)
Fixpoint specific_first (table : list (string * string)) : bool :=
  match table with
  | [] => true
  | (spoken, _) :: rest =>
      forallb (fun later => negb (contains spoken (fst later))) rest
      && specific_first rest
  end.

(** the text after the first [n] entries of the table have been applied *)
Definition after_entries (n : nat) (text : string) : string :=
  apply_replacements (firstn n replacements) text.

(** ** Answering "no" twice *)

(** two turns with the input "no": the first in [state] with a value
    awaiting confirmation, the second in the state, and with the record
    and the flag, that the first turn returned *)
Definition no_twice (state : string) (record : gmap string string) (e : env)
    : option (turn * turn) :=
  match process_conversation "no" state "" true e (State record None []) with
  | (Ok t1, s1) =>
      match process_conversation "no" (new_state t1) (current_field t1)
              (awaiting_confirmation t1) e
              (State (updated_data t1) (excel s1) (sink_calls s1)) with
      | (Ok t2, _) => Some (t1, t2)
      | (Raise _, _) => None
      end
  | (Raise _, _) => None
  end.

(** what the extractor of a field makes of the text "no" *)
Definition no_as_value (field : string) : string :=
  if mem field ["email"; "phone"] then "" else "No".

(** ** Conversations *)

(** what the client holds between two requests *)
Record config := Config {
  at_state : string;
  record_of : gmap string string;
  awaiting : bool
}.

Definition after (t : turn) : config :=
  Config (new_state t) (updated_data t) (awaiting_confirmation t).

Definition start : config := Config "greeting" empty_user_data false.

(** which manual entries a client sends: any field at any time, or only
    the field of the collecting state the conversation is in *)
Definition any_field (_ : config) (_ : string) : Prop := True.

Definition field_being_collected (c : config) (field : string) : Prop :=
  at_state c = "collect_" ++ field.

(** the configurations a conversation can be in: it starts in [greeting]
    with the empty record, and each step sends the state, the record and
    the flag of the last answer, with any input, to one of the routes *)
Inductive reachable (allowed : config -> string -> Prop) : config -> Prop :=
| reach_start : reachable allowed start
| reach_turn c user_input cf e file calls t s' :
    reachable allowed c ->
    Route.process_conversation
      (request user_input (at_state c) (record_of c) cf (awaiting c))
      e file calls = (Route.Json t, s') ->
    reachable allowed (after t)
| reach_manual c field value t :
    reachable allowed c ->
    allowed c field ->
    Route.handle_manual_input
      (Some (Route.ManualRequest (Some field) (Some value) (Some (record_of c))))
    = Route.Json t ->
    reachable allowed (after t).

Definition filled (record : gmap string string) (k : string) : Prop :=
  exists v, record !! k = Some v /\ v <> "".

Definition all_five_filled (record : gmap string string) : Prop :=
  Forall (filled record) Route.field_order.

(** how many fields a state has behind it *)
Definition rank (state : string) : option nat :=
  Route.index
    [ "collect_name"; "collect_company"; "collect_email"; "collect_phone";
      "collect_country"; "final_confirmation" ] state.

(** the fields behind the state are filled, and so is the field of the
    state when its value awaits confirmation *)
Definition progress (state : string) (aw : bool) (values : list string) : Prop :=
  match rank state with
  | None => True
  | Some n =>
      Forall (fun v => v <> "") (firstn n values) /\
      (aw = true -> Forall (fun v => v <> "") (firstn (S n) values))
  end.

(** the invariant of a conversation *)
Definition well_filled (c : config) : Prop :=
  exists name company email phone country,
    record_of c !! "name" = Some name /\
    record_of c !! "company" = Some company /\
    record_of c !! "email" = Some email /\
    record_of c !! "phone" = Some phone /\
    record_of c !! "country" = Some country /\
    progress (at_state c) (awaiting c) [name; company; email; phone; country].

(** the configuration after the user says [user_input], and after the
    user types [value] for [field]; a 500 answer leaves the client where
    it was *)
Definition said (user_input : string) (c : config) : config :=
  match fst (Route.process_conversation
               (request user_input (at_state c) (record_of c) "" (awaiting c))
               (Env "" 0 Failed) None []) with
  | Route.Json t => after t
  | Route.ServerError _ => c
  end.

Definition typed (field value : string) (c : config) : config :=
  match Route.handle_manual_input
          (Some (Route.ManualRequest (Some field) (Some value)
                   (Some (record_of c)))) with
  | Route.Json t => after t
  | Route.ServerError _ => c
  end.

(** a visitor who greets and then types the five values *)
Definition typed_conversation : config :=
  typed "country" "France"
    (typed "phone" "9876543210"
       (typed "email" "ann@acme.io"
          (typed "company" "Acme" (typed "name" "Ann" (said "good" start))))).

(** ** Vocabulary of the further properties *)

(** the character [s.title()] writes for [c], [prev_cased] telling
    whether the character before it is a letter *)
Definition title_char (prev_cased : bool) (c : ascii) : ascii :=
  if is_lower c then (if prev_cased then c else upper_char c)
  else if is_upper c then (if prev_cased then lower_char c else c)
  else c.

(** a text of ASCII characters: on these [str.lower] and [str.title]
    change no length, and the primitives above are Python's *)
Definition is_ascii (s : string) : bool :=
  sall (fun c => (code c <? 128)%nat) s.

(** a text that does not start with white space *)
Definition starts_clean (s : string) : bool :=
  match s with
  | EmptyString => true
  | String c _ => negb (is_space c)
  end.

(** a piece taken by an atom: characters of its class, within its bounds *)
Definition fits (a : atom) (piece : string) : Prop :=
  sall (cls a) piece = true /\
  (lo a <= String.length piece)%nat /\
  (forall h, hi a = Some h -> (String.length piece <= h)%nat).

(** an address of the form local@domain.tld in lower case *)
Definition lower_case (c : ascii) : bool := negb (is_upper c).

Definition email_like (e : string) : Prop :=
  exists local domain tld,
    e = local ++ "@" ++ domain ++ "." ++ tld
    /\ local <> "" /\ sall local_char local = true
    /\ domain <> "" /\ sall domain_char domain = true
    /\ (2 <= String.length tld)%nat /\ sall is_alpha tld = true
    /\ sall lower_case e = true.

(** a calling code: "+" and one to three digits *)
Definition calling_code (v : string) : bool :=
  match v with
  | String c d =>
      is_char "+" c && sall is_digit d
      && (1 <=? String.length d)%nat && (String.length d <=? 3)%nat
  | EmptyString => false
  end.

(** the keys of the record a state's handler may assign *)
Definition writes (state : string) : list string :=
  match rank state with
  | Some 0 => ["name"]
  | Some 1 => ["company"]
  | Some 2 => ["email"]
  | Some 3 => ["phone"]
  | Some 4 => ["phone"; "country"]
  | _ => []
  end.

(** the states a handler can return *)
Definition returned_states : list string :=
  [ "greeting"; "collect_name"; "collect_company"; "collect_email";
    "collect_phone"; "collect_country"; "final_confirmation"; "finished" ].

(** * Proofs *)

(** ** Facts about the string primitives *)

Lemma startswith_app (p s : string) : startswith p (p ++ s) = true.
Proof.
  induction p as [|c p IH]; simpl; [reflexivity|].
  now rewrite Ascii.eqb_refl, IH.
Qed.

Lemma contains_unfold (v h : string) :
  contains v h =
  startswith v h || match h with EmptyString => false | String _ h' => contains v h' end.
Proof. destruct h; reflexivity. Qed.

Lemma contains_here (v b : string) : contains v (v ++ b) = true.
Proof. rewrite contains_unfold, startswith_app. reflexivity. Qed.

Lemma contains_skip (v a x : string) :
  contains v x = true -> contains v (a ++ x) = true.
Proof.
  intros H. induction a as [|c a IH]; [exact H|].
  change (String c a ++ x) with (String c (a ++ x)).
  rewrite contains_unfold, IH. apply orb_true_r.
Qed.

Lemma contains_between (v a b : string) : contains v (a ++ v ++ b) = true.
Proof. apply contains_skip, contains_here. Qed.

Lemma is_empty_true (s : string) : is_empty s = true <-> s = "".
Proof. destruct s; simpl; split; congruence. Qed.

Lemma is_empty_false (s : string) : is_empty s = false <-> s <> "".
Proof. destruct s; simpl; split; congruence. Qed.

Lemma truthy_Some (o : option string) (v : string) :
  truthy o = Some v -> o = Some v /\ v <> "".
Proof.
  destruct o as [w|]; simpl; [|discriminate].
  destruct (is_empty w) eqn:E; [discriminate|].
  intros [= ->]. split; [reflexivity|]. now apply is_empty_false.
Qed.

(** running a handler body step by step *)
Lemma bind_getitem {B} (k : string) (f : string -> M B) (e : env) (s : state) :
  bind (getitem k) f e s =
  match user_data s !! k with
  | Some v => f v e s
  | None => (Raise (KeyError k), s)
  end.
Proof. unfold bind, getitem. now destruct (user_data s !! k). Qed.

Lemma bind_setitem {B} (k v : string) (f : unit -> M B) (e : env) (s : state) :
  bind (setitem k v) f e s =
  f tt e (State (<[k := v]> (user_data s)) (excel s) (sink_calls s)).
Proof. reflexivity. Qed.

Lemma bind_ask {B} (f : env -> M B) (e : env) (s : state) :
  bind ask f e s = f e e s.
Proof. reflexivity. Qed.

Lemma reply_eq (r st f : string) (a : bool) (e : env) (s : state) :
  reply r st f a e s = (Ok (Turn r st (user_data s) f a None None), s).
Proof. reflexivity. Qed.

Lemma reply_manual_eq (r st f : string) (e : env) (s : state) :
  reply_manual r st f e s =
  (Ok (Turn r st (user_data s) f false (Some true) (Some f)), s).
Proof. reflexivity. Qed.

Ltac tidy H :=
  cbn [user_data excel sink_calls] in H;
  rewrite ?lookup_insert_eq in H;
  rewrite ?lookup_insert_ne in H by discriminate;
  cbv beta iota in H.

(** one statement of the body; a read of a missing key ends the case *)
Ltac mstep H :=
  first
    [ rewrite bind_setitem in H; tidy H
    | rewrite bind_ask in H; tidy H
    | rewrite bind_getitem in H; tidy H;
      lazymatch type of H with
      | match ?x with _ => _ end = _ =>
          let E := fresh "E" in
          destruct x eqn:E; [|discriminate H]
      | _ => idtac
      end
    | rewrite reply_eq in H; tidy H
    | rewrite reply_manual_eq in H; tidy H ].

Ltac mrun H := repeat mstep H.

Lemma country_turn_restates user_input cf awaiting e s t s' :
  handle_country_collection user_input cf awaiting e s = (Ok t, s') ->
  new_state t = "final_confirmation" ->
  restates t "name" = true /\ restates t "company" = true /\
  restates t "email" = true /\ restates t "phone" = true.
Proof.
  unfold handle_country_collection. intros H Hst.
  destruct awaiting.
  - destruct (is_positive_response user_input).
    + mrun H. injection H as <- _. unfold restates.
      cbn [updated_data bot_response].
      rewrite !lookup_insert_eq, !lookup_insert_ne by discriminate.
      rewrite E1, E2, E3.
      repeat split; repeat (apply contains_here || apply contains_skip).
    + destruct (is_negative_response user_input); mrun H;
        injection H as <- _; discriminate Hst.
  - destruct (truthy (extract_country user_input)); mrun H;
      injection H as <- _; discriminate Hst.
Qed.

Lemma manual_turn_restates data t :
  Route.handle_manual_input data = Route.Json t ->
  new_state t = "final_confirmation" ->
  restates t "name" = true /\ restates t "company" = true /\
  restates t "email" = true /\ restates t "phone" = true.
Proof.
  unfold Route.handle_manual_input. intros H Hst.
  destruct data as [d|]; [|discriminate H].
  set (field := default "" (Route.req_field d)) in *.
  set (value := default "" (Route.req_value d)) in *.
  set (ud := default ∅ (Route.req_manual_user_data d)) in *.
  destruct (Route.manual_input_body _ _ _ _) as [[t'|x] s1] eqn:B;
    [injection H as ->|discriminate H].
  unfold Route.manual_input_body in B.
  destruct (negb (is_empty field) && negb (is_empty (strip value))).
  - mstep B.
    unfold Route.field_order, Route.index in B.
    repeat match type of B with
    | context [String.eqb ?a field] =>
        let Q := fresh "Q" in
        destruct (String.eqb a field) eqn:Q;
        [apply String.eqb_eq in Q; subst field; rewrite <- Q in B|]
    end; cbn [fmap option_fmap option_map Nat.ltb Nat.leb List.length Nat.sub nth Nat.add] in B;
    try (mrun B; injection B as <- _; discriminate Hst).
    + mrun B. injection B as <- _. unfold restates.
      cbn [updated_data bot_response].
      rewrite !lookup_insert_ne by discriminate.
      rewrite E, E0, E1, E2.
      repeat split; repeat (apply contains_here || apply contains_skip).
    + discriminate B.
  - mrun B. injection B as <- _. discriminate Hst.
Qed.

(** C1 (as amended).  Whenever a turn enters [final_confirmation] with a
    summary, by an answer in the country-collecting state or by manual
    entry, the reply text restates the name, the company, the email and
    the (formatted) phone held by the returned record. *)
Theorem final_prompt_restates_four (t : turn) :
  confirmation_prompt t ->
  restates t "name" = true /\ restates t "company" = true /\
  restates t "email" = true /\ restates t "phone" = true.
Proof.
  intros [user_input cf awaiting e s t' s' H Hst | data t' H Hst].
  - exact (country_turn_restates _ _ _ _ _ _ _ H Hst).
  - exact (manual_turn_restates _ _ H Hst).
Qed.

Lemma final_prompt_restates_four_witness :
  exists t, fst yes_to_country = Ok t /\
    (restates t "name" = true /\ restates t "company" = true /\
     restates t "email" = true /\ restates t "phone" = true).
Proof.
  eexists. split; [vm_compute; reflexivity|].
  apply final_prompt_restates_four.
  eapply prompt_by_country with (user_input := "yes") (cf := "country")
    (awaiting := true) (e := Env "" 0 Failed) (s := State full_record None []);
    vm_compute; reflexivity.
Defined.

(** C1 as stated fails: on both paths the summary leaves the country out.
    The record holds country "France", and "France" does not occur in
    the reply. *)
Lemma final_prompt_omits_country :
  (exists t, fst yes_to_country = Ok t /\ confirmation_prompt t /\
     updated_data t !! "country" = Some "France" /\
     restates t "country" = false) /\
  (exists t, typed_country = Route.Json t /\ confirmation_prompt t /\
     updated_data t !! "country" = Some "France" /\
     restates t "country" = false).
Proof.
  split.
  - eexists. split; [vm_compute; reflexivity|]. split; [|split].
    + eapply prompt_by_country with (user_input := "yes") (cf := "country")
        (awaiting := true) (e := Env "" 0 Failed) (s := State full_record None []);
        vm_compute; reflexivity.
    + vm_compute; reflexivity.
    + vm_compute; reflexivity.
  - eexists. split; [vm_compute; reflexivity|]. split; [|split].
    + eapply prompt_by_manual with
        (data := Some (Route.ManualRequest (Some "country") (Some "France")
                         (Some (delete "country" full_record))));
        vm_compute; reflexivity.
    + vm_compute; reflexivity.
    + vm_compute; reflexivity.
Qed.

(** ** Phone reformatting (C6) *)

Lemma is_empty_lower (s : string) : is_empty (lower s) = is_empty s.
Proof. destruct s; reflexivity. Qed.

Lemma format_phone_keeps_plus (phone country : string) :
  startswith "+" phone = true -> format_phone_with_country phone country = phone.
Proof.
  intros H. unfold format_phone_with_country. rewrite H.
  now destruct (is_empty phone || is_empty country).
Qed.

Lemma format_phone_unknown_country (phone country : string) :
  country_codes !! lower country = None ->
  format_phone_with_country phone country = phone.
Proof.
  intros H. unfold format_phone_with_country. rewrite H.
  destruct (is_empty phone || is_empty country); [reflexivity|].
  destruct (startswith "+" phone); reflexivity.
Qed.

Lemma format_phone_case_insensitive (phone c1 c2 : string) :
  lower c1 = lower c2 ->
  format_phone_with_country phone c1 = format_phone_with_country phone c2.
Proof.
  intros H. unfold format_phone_with_country.
  rewrite <- (is_empty_lower c1), <- (is_empty_lower c2), H. reflexivity.
Qed.

(** the goal-side counterpart of [mstep], fed by the lookups in the context *)
Ltac gstep :=
  first
    [ rewrite bind_setitem
    | rewrite bind_ask
    | rewrite bind_getitem
    | rewrite reply_eq
    | rewrite reply_manual_eq ];
  cbn [user_data excel sink_calls];
  rewrite ?lookup_insert_eq;
  rewrite ?lookup_insert_ne by discriminate;
  repeat match goal with
  | H : ?m !! ?k = _ |- context [?m !! ?k] => rewrite H
  end;
  cbv beta iota.

(** the affirmative branch of the country handler on a record that has
    the five keys *)
Lemma country_affirmative user_input cf e s name company email phone country :
  is_positive_response user_input = true ->
  user_data s !! "name" = Some name ->
  user_data s !! "company" = Some company ->
  user_data s !! "email" = Some email ->
  user_data s !! "phone" = Some phone ->
  user_data s !! "country" = Some country ->
  let formatted := format_phone_with_country phone country in
  let record := <["phone" := formatted]> (user_data s) in
  handle_country_collection user_input cf true e s =
  (Ok (Turn ("Perfect! Let me confirm your details: Name: " ++ name
             ++ ", Company: " ++ company ++ ", Email: " ++ email
             ++ ", Phone: " ++ formatted ++ ". Should I submit this information?")
            "final_confirmation" record "" false None None),
   State record (excel s) (sink_calls s)).
Proof.
  intros Hpos Hn Hc He Hp Hk formatted record.
  unfold handle_country_collection. rewrite Hpos.
  repeat gstep. reflexivity.
Qed.

(** C6.  The phone reformatting done on an affirmative answer in the
    country-collecting state: the stored phone is
    [format_phone_with_country phone country]; "9876543210" with "India"
    becomes "+919876543210"; a phone that starts with "+" is unchanged;
    a country that is not in the table (such as "Atlantis") leaves the
    phone unchanged; the lookup ignores case, and "usa", "united states",
    "america" and "us" all give "+1". *)
Theorem phone_reformatting (phone country country' : string) :
  format_phone_with_country "9876543210" "India" = "+919876543210"
  /\ format_phone_with_country "9876543210" "Atlantis" = "9876543210"
  /\ (startswith "+" phone = true ->
      format_phone_with_country phone country = phone)
  /\ (country_codes !! lower country = None ->
      format_phone_with_country phone country = phone)
  /\ (lower country = lower country' ->
      format_phone_with_country phone country =
      format_phone_with_country phone country')
  /\ Forall (fun variant =>
       format_phone_with_country "5550100" variant = "+15550100")
       ["usa"; "USA"; "United States"; "america"; "America"; "us"; "US"]
  /\ (forall user_input cf e s name company email,
      is_positive_response user_input = true ->
      user_data s !! "name" = Some name ->
      user_data s !! "company" = Some company ->
      user_data s !! "email" = Some email ->
      user_data s !! "phone" = Some phone ->
      user_data s !! "country" = Some country ->
      exists t s',
        handle_country_collection user_input cf true e s = (Ok t, s') /\
        new_state t = "final_confirmation" /\
        updated_data t !! "phone" =
          Some (format_phone_with_country phone country)).
Proof.
  split; [vm_compute; reflexivity|].
  split; [vm_compute; reflexivity|].
  split; [apply format_phone_keeps_plus|].
  split; [apply format_phone_unknown_country|].
  split; [apply format_phone_case_insensitive|].
  split; [repeat constructor|].
  intros user_input cf e s name company email Hpos Hn Hc He Hp Hk.
  eexists _, _. split; [|split].
  - exact (country_affirmative _ cf e s _ _ _ _ _ Hpos Hn Hc He Hp Hk).
  - reflexivity.
  - cbn [updated_data]. apply lookup_insert_eq.
Qed.

Lemma phone_reformatting_witness :
  format_phone_with_country "+14155550100" "India" = "+14155550100"
  /\ format_phone_with_country "9876543210" "Atlantis" = "9876543210"
  /\ format_phone_with_country "9876543210" "INDIA" =
     format_phone_with_country "9876543210" "india"
  /\ exists t s',
       handle_country_collection "yes" "country" true (Env "" 0 Failed)
         (State full_record None []) = (Ok t, s') /\
       new_state t = "final_confirmation" /\
       updated_data t !! "phone" =
         Some (format_phone_with_country "9876543210" "France").
Proof.
  split; [|split; [|split]].
  - apply (phone_reformatting "+14155550100" "India" "India"). reflexivity.
  - apply (phone_reformatting "9876543210" "Atlantis" "Atlantis").
    vm_compute; reflexivity.
  - apply (phone_reformatting "9876543210" "INDIA" "india"). reflexivity.
  - destruct (phone_reformatting "9876543210" "France" "France")
      as (_ & _ & _ & _ & _ & _ & H).
    apply (H "yes" "country" (Env "" 0 Failed) (State full_record None [])
             "Ann" "Acme" "ann@acme.io"); vm_compute; reflexivity.
Defined.

(** ** The affirmative classifier is consulted first (C5, C10) *)






(** C10.  In the greeting state, an input that is not off-topic and
    contains a negative mood phrase gets the empathetic reply and moves
    to the name-collecting state, also when it contains a positive mood
    word: the negative mood words are tried first. *)
Theorem greeting_negative_mood_first (user_input cf : string) (awaiting : bool)
    (e : env) (s : state) :
  is_off_topic_question user_input = false ->
  any_in negative_words (lower user_input) = true ->
  any_in positive_words (lower user_input) = true ->
  handle_greeting user_input cf awaiting e s =
  (Ok (Turn "I'm sorry to hear that. I hope our event can brighten your day! Let's get you registered. What's your name?"
            "collect_name" (user_data s) "name" false None None), s).
Proof.
  intros Hoff Hneg _. unfold handle_greeting. rewrite Hoff, Hneg.
  apply reply_eq.
Qed.

Lemma greeting_negative_mood_first_witness :
  is_off_topic_question "not good" = false /\
  any_in negative_words (lower "not good") = true /\
  any_in positive_words (lower "not good") = true /\
  new_state_of (handle_greeting "not good" "" false (Env "" 0 Failed)
                  (State empty_user_data None [])) = Some "collect_name".
Proof.
  split; [vm_compute; reflexivity|]. split; [vm_compute; reflexivity|].
  split; [vm_compute; reflexivity|].
  rewrite (greeting_negative_mood_first "not good" "" false (Env "" 0 Failed)
             (State empty_user_data None []));
    vm_compute; reflexivity.
Defined.

(** ** The turn operation is total (C4) *)

Lemma dispatch_unknown (state : string) :
  ~ In state known_states -> conversation_states !! state = None.
Proof.
  intros H. unfold conversation_states. cbn [list_to_map foldr uncurry fst snd].
  rewrite !lookup_insert_ne
    by (intros Heq; apply H; subst state; unfold known_states; simpl; tauto).
  apply lookup_empty.
Qed.

Lemma dispatch_known :
  conversation_states !! "greeting" = Some handle_greeting /\
  conversation_states !! "collect_name" = Some handle_name_collection /\
  conversation_states !! "collect_company" = Some handle_company_collection /\
  conversation_states !! "collect_email" = Some handle_email_collection /\
  conversation_states !! "collect_phone" = Some handle_phone_collection /\
  conversation_states !! "collect_country" = Some handle_country_collection /\
  conversation_states !! "final_confirmation" = Some handle_final_confirmation.
Proof.
  unfold conversation_states. cbn [list_to_map foldr uncurry fst snd].
  repeat split;
    rewrite ?lookup_insert_ne by discriminate; apply lookup_insert_eq.
Qed.

(** C4.  The turn operation always answers with a turn (status 200), for
    every request: with no JSON body it is the apology with the defaults;
    otherwise it is the handler's turn, or, when the handler raises (a
    record that lacks a key it reads), the apology with the requested
    state, the record as the handler left it, and
    [awaiting_confirmation] false.  A state name outside the table is
    served by the greeting handler. *)
Theorem turn_is_total (data : option Route.conversation_request) (e : env)
    (file : option (list (gmap string string)))
    (calls : list (gmap string string)) :
  (exists t s', Route.process_conversation data e file calls = (Route.Json t, s') /\
     match data with
     | None => t = Route.apology "greeting" ∅ ""
     | Some d =>
         let state := default "greeting" (Route.req_conversation_state d) in
         let cf := default "" (Route.req_current_field d) in
         match process_conversation (default "" (Route.req_user_input d)) state cf
                 (default false (Route.req_awaiting_confirmation d)) e
                 (State (default ∅ (Route.req_user_data d)) file calls) with
         | (Ok result, _) => t = result
         | (Raise _, s1) => t = Route.apology state (user_data s1) cf
         end
     end)
  /\ (forall user_input state cf awaiting,
        ~ In state known_states ->
        process_conversation user_input state cf awaiting =
        handle_greeting user_input cf awaiting).
Proof.
  split.
  - unfold Route.process_conversation. destruct data as [d|].
    + cbv zeta.
      destruct (process_conversation _ _ _ _ _ _) as [[result|x] [ud f c]];
        eexists _, _; split; reflexivity.
    + eexists _, _; split; reflexivity.
  - intros user_input state cf awaiting H. unfold process_conversation.
    now rewrite (dispatch_unknown _ H).
Qed.

Lemma turn_is_total_witness :
  (exists s',
     Route.process_conversation
       (request "yes" "collect_country"
          (<["phone" := "5550100"]> (<["country" := "India"]> ∅)) "country" true)
       (Env "" 0 Failed) None [] =
     (Route.Json (Route.apology "collect_country"
                    (<["phone" := "+915550100"]> (<["country" := "India"]> ∅))
                    "country"), s'))
  /\ process_conversation "" "finished" "" false = handle_greeting "" "" false.
Proof.
  split.
  - destruct (turn_is_total
                (request "yes" "collect_country"
                   (<["phone" := "5550100"]> (<["country" := "India"]> ∅))
                   "country" true)
                (Env "" 0 Failed) None []) as [(t & s' & H & Ht) _].
    exists s'. rewrite H. vm_compute in Ht. rewrite Ht. vm_compute. reflexivity.
  - apply (turn_is_total None (Env "" 0 Failed) None []).
    unfold known_states. simpl. intros H.
    repeat (destruct H as [H|H]; [discriminate H|]). exact H.
Defined.

(** ** The final confirmation (C3) *)

Lemma save_visitor_data_spec (e : env) (s : state) :
  exists sheet,
    save_visitor_data e s =
    (Ok tt, State (stamped e (user_data s)) sheet (sink_calls s ++ [user_data s])%list).
Proof. unfold save_visitor_data, stamped. destruct (pandas e); eauto. Qed.

Lemma final_affirmative user_input cf awaiting e s :
  is_positive_response user_input = true ->
  exists sheet,
    handle_final_confirmation user_input cf awaiting e s =
    (Ok (Turn thank_you "finished" (stamped e (user_data s)) "" false None None),
     State (stamped e (user_data s)) sheet (sink_calls s ++ [user_data s])%list).
Proof.
  intros Hpos. unfold handle_final_confirmation. rewrite Hpos.
  destruct (save_visitor_data_spec e s) as [sheet Hs].
  exists sheet. unfold bind. rewrite Hs. reflexivity.
Qed.

(** C3 (as amended).  In [final_confirmation], on an affirmative input
    the handler calls the sink exactly once, with the record it was
    given, enters [finished] and returns the thank-you message, and the
    turn is the same whatever the outcome of the write; on a negative
    input that is not also affirmative it returns the record with all
    five fields empty, enters the name-collecting state and does not call
    the sink. *)
Theorem final_confirmation_outcomes (user_input cf : string) (awaiting : bool)
    (e : env) (s : state) :
  (is_positive_response user_input = true ->
   (exists s',
      handle_final_confirmation user_input cf awaiting e s =
      (Ok (Turn thank_you "finished" (stamped e (user_data s)) "" false None None), s')
      /\ sink_calls s' = (sink_calls s ++ [user_data s])%list)
   /\ (forall io,
         fst (handle_final_confirmation user_input cf awaiting (with_pandas io e) s)
         = fst (handle_final_confirmation user_input cf awaiting e s)))
  /\ (is_positive_response user_input = false ->
      is_negative_response user_input = true ->
      handle_final_confirmation user_input cf awaiting e s =
      (Ok (Turn "No problem! Let's start fresh. What's your name?"
                "collect_name" empty_user_data "name" false None None), s)
      /\ Forall (fun k => empty_user_data !! k = Some "") Route.field_order).
Proof.
  split.
  - intros Hpos. split.
    + destruct (final_affirmative user_input cf awaiting e s Hpos) as [sheet H].
      eexists. split; [exact H|reflexivity].
    + intros io.
      destruct (final_affirmative user_input cf awaiting e s Hpos) as [sheet H].
      destruct (final_affirmative user_input cf awaiting (with_pandas io e) s Hpos)
        as [sheet' H'].
      rewrite H, H'. reflexivity.
  - intros Hpos Hneg. split.
    + unfold handle_final_confirmation. rewrite Hpos, Hneg. reflexivity.
    + repeat constructor.
Qed.

Lemma final_confirmation_outcomes_witness :
  (is_positive_response "yes" = true /\
   exists s',
     handle_final_confirmation "yes" "" false (Env "" 0 Failed)
       (State full_record None []) =
     (Ok (Turn thank_you "finished" (stamped (Env "" 0 Failed) full_record)
            "" false None None), s')
     /\ sink_calls s' = [full_record])
  /\ (is_positive_response "no" = false /\ is_negative_response "no" = true /\
      handle_final_confirmation "no" "" false (Env "" 0 Failed)
        (State full_record None []) =
      (Ok (Turn "No problem! Let's start fresh. What's your name?"
                "collect_name" empty_user_data "name" false None None),
       State full_record None [])).
Proof.
  split.
  - split; [vm_compute; reflexivity|].
    apply (final_confirmation_outcomes "yes" "" false (Env "" 0 Failed)
             (State full_record None [])).
    vm_compute; reflexivity.
  - split; [vm_compute; reflexivity|]. split; [vm_compute; reflexivity|].
    apply (final_confirmation_outcomes "no" "" false (Env "" 0 Failed)
             (State full_record None []));
      vm_compute; reflexivity.
Defined.

(** C3 as stated fails on a negative input that is also affirmative:
    "not right" is an entry of the negative list and contains "right",
    so the handler submits the record instead of resetting it. *)
Lemma final_negative_input_submits :
  is_negative_response "not right" = true /\
  mem "not right" negative_responses = true /\
  new_state_of not_right_at_final = Some "finished" /\
  sink_calls (snd not_right_at_final) = [full_record] /\
  (exists t, fst not_right_at_final = Ok t /\
             updated_data t !! "name" = Some "Ann").
Proof.
  repeat split; try (vm_compute; reflexivity).
  eexists. split; vm_compute; reflexivity.
Qed.

(** ** What the phone extractor returns (C7) *)

Lemma sall_sfilter (p : ascii -> bool) (s : string) : sall p (sfilter p s) = true.
Proof.
  induction s as [|c s IH]; [reflexivity|]. simpl.
  destruct (p c) eqn:E; [simpl; now rewrite E|exact IH].
Qed.

(** a one-character class at the head of a text *)
Lemma match_one (q : ascii -> bool) (c : ascii) (s : string) :
  match_at [one q] anywhere (String c s) =
  if q c then Some ([String c ""], s) else None.
Proof.
  cbn [match_at]. unfold one. cbn [cls lo hi span].
  destruct (q c); now destruct s.
Qed.

(** [re.sub(r'[^\d\+]', '', text)] keeps the digits and the plus signs *)
Lemma strip_other_chars (s : string) :
  sub (match_at [one (fun c => negb (digit_or_plus c))] anywhere) erase s =
  sfilter digit_or_plus s.
Proof.
  unfold sub.
  set (m := match_at [one (fun c => negb (digit_or_plus c))] anywhere).
  induction s as [|c s IH]; [reflexivity|].
  cbn [sub_go sfilter]. unfold m at 1. rewrite match_one.
  destruct (digit_or_plus c); cbn [negb].
  - now rewrite IH.
  - cbn [matched String.concat String.length erase String.append]. exact IH.
Qed.

Lemma length_8_nonempty (s : string) :
  in_range_8_15 (String.length s) = true -> is_empty s = false.
Proof. now destruct s. Qed.

Lemma validate_phone_of_shape (p : string) :
  sall digit_or_plus p = true ->
  in_range_8_15 (String.length (if startswith "+" p then drop 1 p else p)) = true ->
  validate_phone p = sall is_digit (drop 1 p).
Proof.
  intros Hall Hlen. unfold validate_phone.
  destruct p as [|c p]; [discriminate Hlen|].
  cbn [is_empty]. destruct (startswith "+" (String c p)) eqn:Hplus.
  - rewrite Hlen. unfold isdigit. now rewrite (length_8_nonempty _ Hlen).
  - rewrite Hlen. unfold isdigit. cbn [is_empty negb drop sall andb].
    cbn [sall] in Hall. apply andb_true_iff in Hall as [Hc _].
    unfold digit_or_plus in Hc. cbn [startswith] in Hplus.
    unfold is_char in Hc. rewrite andb_true_r in Hplus. rewrite Hplus in Hc.
    rewrite orb_false_r in Hc. now rewrite Hc.
Qed.

Lemma extract_phone_shape (text p : string) :
  extract_phone text = Some p ->
  sall digit_or_plus p = true /\
  in_range_8_15 (String.length (if startswith "+" p then drop 1 p else p)) = true.
Proof.
  unfold extract_phone.
  destruct (is_empty text || (String.length (strip text) <? 3)%nat);
    [discriminate|].
  cbv zeta. rewrite strip_other_chars.
  match goal with |- context [sfilter digit_or_plus ?t] =>
    generalize (sall_sfilter digit_or_plus t); generalize (sfilter digit_or_plus t)
  end.
  intros q Hq.
  destruct (startswith "+" q) eqn:Hplus.
  - destruct (in_range_8_15 (String.length (drop 1 q))) eqn:Hlen; [|discriminate].
    intros [= <-]. now rewrite Hplus.
  - destruct (in_range_8_15 (String.length q)) eqn:Hlen; [|discriminate].
    intros [= <-]. now rewrite Hplus.
Qed.

(** C7 (as amended).  A value returned by the phone extractor is made of
    digits and "+" characters only, and its length, a leading "+" not
    counted, is between 8 and 15; it passes [validate_phone] exactly
    when every character after the first is a digit.  The phone handler
    stores the value, and asks for its confirmation, when
    [validate_phone] accepts it, and only then: when [validate_phone]
    rejects it, the handler returns the record it was given and asks
    for the number again. *)
Theorem extracted_phone_shape (text p : string) :
  extract_phone text = Some p ->
  sall digit_or_plus p = true
  /\ in_range_8_15 (String.length (if startswith "+" p then drop 1 p else p)) = true
  /\ validate_phone p = sall is_digit (drop 1 p)
  /\ (forall cf e s,
        handle_phone_collection text cf false e s =
        if validate_phone p then
          (Ok (Turn ("I heard your phone number as " ++ p ++ ". Is that correct?")
                    "collect_phone" (<["phone" := p]> (user_data s))
                    "phone" true None None),
           State (<["phone" := p]> (user_data s)) (excel s) (sink_calls s))
        else
          (Ok (Turn "Please speak your phone number digit by digit, like 'nine eight seven six five four three two one'."
                    "collect_phone" (user_data s) "phone" false
                    (Some true) (Some "phone")),
           s))
  /\ (forall cf e s t s',
        handle_phone_collection text cf false e s = (Ok t, s') ->
        awaiting_confirmation t = true ->
        validate_phone p = true /\ updated_data t !! "phone" = Some p).
Proof.
  intros H. destruct (extract_phone_shape _ _ H) as [Hall Hlen].
  split; [exact Hall|]. split; [exact Hlen|].
  split; [now apply validate_phone_of_shape|].
  assert (is_empty p = false) as Hne.
  { destruct p; [|reflexivity]. discriminate Hlen. }
  split.
  - intros cf e s. unfold handle_phone_collection. rewrite H.
    unfold truthy. rewrite Hne.
    destruct (validate_phone p); repeat gstep; reflexivity.
  - intros cf e s t s' Hh Haw. unfold handle_phone_collection in Hh.
    rewrite H in Hh. unfold truthy in Hh. rewrite Hne in Hh.
    destruct (validate_phone p);
      [|mrun Hh; injection Hh as <- _; discriminate Haw].
    mrun Hh. injection Hh as <- _. split; [reflexivity|].
    cbn [updated_data]. apply lookup_insert_eq.
Qed.

Lemma extracted_phone_shape_witness :
  (extract_phone "double nine eight seven six five four three two one"
     = Some "9987654321"
   /\ validate_phone "9987654321" = sall is_digit (drop 1 "9987654321"))
  /\ (extract_phone "1234+5678" = Some "1234+5678"
      /\ handle_phone_collection "1234+5678" "phone" false (Env "" 0 Failed)
           (State full_record None []) =
         (Ok (Turn "Please speak your phone number digit by digit, like 'nine eight seven six five four three two one'."
                   "collect_phone" full_record "phone" false
                   (Some true) (Some "phone")),
          State full_record None [])).
Proof.
  split.
  - split; [vm_compute; reflexivity|].
    apply (extracted_phone_shape
             "double nine eight seven six five four three two one" "9987654321").
    vm_compute; reflexivity.
  - split; [vm_compute; reflexivity|].
    destruct (extracted_phone_shape "1234+5678" "1234+5678")
      as (_ & _ & _ & Hh & _); [vm_compute; reflexivity|].
    rewrite Hh. reflexivity.
Defined.

(** C7 as stated fails: a "+" inside the text is kept, the extractor
    returns the value, and the standalone validation rejects it. *)
Lemma extracted_phone_not_valid :
  extract_phone "1234+5678" = Some "1234+5678" /\
  validate_phone "1234+5678" = false /\
  extract_phone "plus plus 12345678" = Some "++12345678" /\
  validate_phone "++12345678" = false.
Proof. repeat split; vm_compute; reflexivity. Qed.

(** ** The email extractor on a spoken address (C8) *)

(** C8 (as amended).  The email extractor maps "John DOT Smith AT gmail
    DOT com" to exactly "john.smith@gmail.com".  The table is applied in
    the order written: " at the rate " comes before " at ", but the
    generic " at " and " dot " come before "dot com" and the provider
    joins, so on this input the second and the fifth entry alone produce
    the address and the later entries change nothing. *)
Theorem spoken_email_extracted :
  extract_email spoken_email = Some "john.smith@gmail.com"
  /\ after_entries 1 (strip (lower spoken_email)) = "john dot smith at gmail dot com"
  /\ after_entries 2 (strip (lower spoken_email)) = "john dot smith@gmail dot com"
  /\ after_entries 4 (strip (lower spoken_email)) = "john dot smith@gmail dot com"
  /\ after_entries 5 (strip (lower spoken_email)) = "john.smith@gmail.com"
  /\ apply_replacements replacements (strip (lower spoken_email))
     = "john.smith@gmail.com"
  /\ map fst (firstn 5 replacements)
     = [" at the rate "; " at "; " @ "; " add "; " dot "].
Proof. repeat split; vm_compute; reflexivity. Qed.

(** C8 as stated fails in its second half: the table does not put the
    longer patterns first.  " dot " is entry 4 and occurs inside
    "gmail dot com", entry 25; the input contains "gmail dot com", but
    when entry 25 is reached the generic entries have already rewritten
    it. *)
Lemma email_table_generic_first :
  specific_first replacements = false /\
  nth 4 replacements ("", "") = (" dot ", ".") /\
  nth 25 replacements ("", "") = ("gmail dot com", "gmail.com") /\
  contains " dot " "gmail dot com" = true /\
  contains "gmail dot com" (strip (lower spoken_email)) = true /\
  contains "gmail dot com" (after_entries 25 (strip (lower spoken_email))) = false.
Proof. repeat split; vm_compute; reflexivity. Qed.

(** ** Answering "no" twice (C9) *)

Lemma process_conversation_known (user_input cf : string) (awaiting : bool) :
  process_conversation user_input "greeting" cf awaiting
    = handle_greeting user_input cf awaiting /\
  process_conversation user_input "collect_name" cf awaiting
    = handle_name_collection user_input cf awaiting /\
  process_conversation user_input "collect_company" cf awaiting
    = handle_company_collection user_input cf awaiting /\
  process_conversation user_input "collect_email" cf awaiting
    = handle_email_collection user_input cf awaiting /\
  process_conversation user_input "collect_phone" cf awaiting
    = handle_phone_collection user_input cf awaiting /\
  process_conversation user_input "collect_country" cf awaiting
    = handle_country_collection user_input cf awaiting /\
  process_conversation user_input "final_confirmation" cf awaiting
    = handle_final_confirmation user_input cf awaiting.
Proof.
  destruct dispatch_known as (H0 & H1 & H2 & H3 & H4 & H5 & H6).
  unfold process_conversation.
  rewrite H0, H1, H2, H3, H4, H5, H6. repeat split.
Qed.

Lemma no_is_negative :
  is_positive_response "no" = false /\ is_negative_response "no" = true.
Proof. split; vm_compute; reflexivity. Qed.

Lemma no_extracted :
  extract_name "no" = Some "No" /\ extract_company "no" = Some "No" /\
  extract_email "no" = None /\ extract_phone "no" = None /\
  extract_country "no" = Some "No".
Proof. repeat split; vm_compute; reflexivity. Qed.

(** replace a dispatch on a known state by its handler *)
Ltac dispatch :=
  match goal with
  | |- context [process_conversation ?u ?st ?cf ?a] =>
      let K := fresh "K" in
      pose proof (process_conversation_known u cf a) as K;
      destruct K as (? & ? & ? & ? & ? & ? & ?);
      match goal with
      | H : process_conversation u st cf a = _ |- _ => rewrite H
      end
  end.

Ltac first_no h :=
  unfold no_twice; dispatch; unfold h at 1;
  rewrite (proj1 no_is_negative), (proj2 no_is_negative);
  repeat gstep;
  cbn [new_state current_field awaiting_confirmation updated_data];
  dispatch; unfold h at 1; cbv iota.

Lemma no_twice_name record e :
  no_twice "collect_name" record e =
  Some (Turn "No problem! Please tell me your correct name, or if you prefer, you can type it manually."
             "collect_name" (<["name" := ""]> record) "name" false (Some true) (Some "name"),
        Turn "I heard your name as No. Is that correct?"
             "collect_name" (<["name" := "No"]> (<["name" := ""]> record))
             "name" true None None).
Proof.
  first_no handle_name_collection.
  destruct no_extracted as (-> & _). cbn [truthy is_empty].
  repeat gstep. reflexivity.
Qed.

Lemma no_twice_company record e :
  no_twice "collect_company" record e =
  Some (Turn "Let me get that right. Which company do you work for? You can speak it or type it manually."
             "collect_company" (<["company" := ""]> record) "company" false
             (Some true) (Some "company"),
        Turn "I heard your company as No. Is that correct?"
             "collect_company" (<["company" := "No"]> (<["company" := ""]> record))
             "company" true None None).
Proof.
  first_no handle_company_collection.
  destruct no_extracted as (_ & -> & _). cbn [truthy is_empty].
  change (1 <? String.length (strip "No"))%nat with true. cbv iota.
  repeat gstep. reflexivity.
Qed.

Lemma no_twice_email record e :
  no_twice "collect_email" record e =
  Some (Turn "Let me get your email right. Please speak it clearly like 'john at gmail dot com', or type it manually."
             "collect_email" (<["email" := ""]> record) "email" false
             (Some true) (Some "email"),
        Turn "I couldn't catch your email clearly. Please speak it like 'john at gmail dot com', or type it manually."
             "collect_email" (<["email" := ""]> record) "email" false
             (Some true) (Some "email")).
Proof.
  first_no handle_email_collection.
  destruct no_extracted as (_ & _ & -> & _). cbn [truthy].
  repeat gstep. reflexivity.
Qed.

Lemma no_twice_phone record e :
  no_twice "collect_phone" record e =
  Some (Turn "No problem! Please provide your correct phone number."
             "collect_phone" (<["phone" := ""]> record) "phone" false
             (Some true) (Some "phone"),
        Turn "Please speak your phone number digit by digit, like 'nine eight seven six five four three two one'."
             "collect_phone" (<["phone" := ""]> record) "phone" false
             (Some true) (Some "phone")).
Proof.
  first_no handle_phone_collection.
  destruct no_extracted as (_ & _ & _ & -> & _). cbn [truthy].
  repeat gstep. reflexivity.
Qed.

Lemma no_twice_country record e :
  no_twice "collect_country" record e =
  Some (Turn "Which country are you from?"
             "collect_country" (<["country" := ""]> record) "country" false
             (Some true) (Some "country"),
        Turn "I heard No. Is that correct?"
             "collect_country" (<["country" := "No"]> (<["country" := ""]> record))
             "country" true None None).
Proof.
  first_no handle_country_collection.
  destruct no_extracted as (_ & _ & _ & _ & ->). cbn [truthy is_empty].
  repeat gstep. reflexivity.
Qed.

(** C9 (as amended).  Answering "no" to a confirmation and "no" again on
    the resulting turn keeps the conversation in the same collecting
    state and leaves every other field of the record as it was, in both
    turns.  The first "no" clears the field.  The second "no" comes with
    [awaiting_confirmation] false and goes to the field's extractor: for
    email and phone it is rejected and the field stays cleared; for name,
    company and country it is accepted, the field holds "No" and awaits
    confirmation. *)
Theorem no_twice_outcome (field : string) (record : gmap string string) (e : env) :
  In field Route.field_order ->
  exists t1 t2,
    no_twice ("collect_" ++ field) record e = Some (t1, t2)
    /\ new_state t1 = "collect_" ++ field
    /\ new_state t2 = "collect_" ++ field
    /\ updated_data t1 !! field = Some ""
    /\ awaiting_confirmation t1 = false
    /\ updated_data t2 !! field = Some (no_as_value field)
    /\ awaiting_confirmation t2 = negb (is_empty (no_as_value field))
    /\ (forall k, k <> field ->
          updated_data t1 !! k = record !! k /\
          updated_data t2 !! k = record !! k).
Proof.
  intros Hin. unfold Route.field_order in Hin. simpl in Hin.
  repeat (destruct Hin as [<- | Hin]); try contradiction;
    cbn [String.append];
    [ rewrite no_twice_name | rewrite no_twice_company | rewrite no_twice_email
    | rewrite no_twice_phone | rewrite no_twice_country ];
    eexists _, _; (split; [reflexivity|]);
    cbn [new_state updated_data awaiting_confirmation];
    rewrite ?lookup_insert_eq;
    repeat (split; [reflexivity|]);
    intros k Hk; rewrite !lookup_insert_ne by congruence; split; reflexivity.
Qed.

Lemma no_twice_outcome_witness :
  In "email" Route.field_order /\
  exists t1 t2,
    no_twice "collect_email" full_record (Env "" 0 Failed) = Some (t1, t2)
    /\ new_state t2 = "collect_email"
    /\ updated_data t2 !! "email" = Some ""
    /\ updated_data t2 !! "name" = Some "Ann".
Proof.
  split; [unfold Route.field_order; simpl; tauto|].
  destruct (no_twice_outcome "email" full_record (Env "" 0 Failed))
    as (t1 & t2 & H & _ & H2 & _ & _ & H5 & _ & H7).
  - unfold Route.field_order; simpl; tauto.
  - exists t1, t2. split; [exact H|]. split; [exact H2|]. split; [exact H5|].
    destruct (H7 "name") as [_ ->]; [discriminate|]. vm_compute; reflexivity.
Defined.

(** C9 as stated fails for name, company and country: the second "no" is
    read as the value.  After "no", "no" in the name-collecting state the
    name is "No", not cleared, and awaits confirmation. *)
Lemma second_no_becomes_value :
  exists t1 t2,
    no_twice "collect_name" full_record (Env "" 0 Failed) = Some (t1, t2)
    /\ updated_data t1 !! "name" = Some ""
    /\ updated_data t2 !! "name" = Some "No"
    /\ awaiting_confirmation t2 = true
    /\ bot_response t2 = "I heard your name as No. Is that correct?".
Proof.
  eexists _, _. split; [vm_compute; reflexivity|].
  repeat split; vm_compute; reflexivity.
Qed.

(** ** The invariant of a conversation (C2) *)

Lemma progress_not_awaiting state aw values :
  progress state aw values -> progress state false values.
Proof.
  unfold progress. destruct (rank state); [|trivial].
  intros [H _]. split; [exact H|discriminate].
Qed.

Lemma state_cases (state : string) :
  state = "collect_name" \/ state = "collect_company" \/
  state = "collect_email" \/ state = "collect_phone" \/
  state = "collect_country" \/ state = "final_confirmation" \/
  (rank state = None /\
   forall user_input cf aw,
     process_conversation user_input state cf aw = handle_greeting user_input cf aw).
Proof.
  destruct (string_dec state "collect_name") as [|N1]; [tauto|].
  destruct (string_dec state "collect_company") as [|N2]; [tauto|].
  destruct (string_dec state "collect_email") as [|N3]; [tauto|].
  destruct (string_dec state "collect_phone") as [|N4]; [tauto|].
  destruct (string_dec state "collect_country") as [|N5]; [tauto|].
  destruct (string_dec state "final_confirmation") as [|N6]; [tauto|].
  do 6 right. split.
  - unfold rank, Route.index.
    repeat match goal with
    | |- context [String.eqb ?a state] =>
        replace (String.eqb a state) with false
          by (symmetry; apply String.eqb_neq; congruence)
    end.
    reflexivity.
  - intros user_input cf aw.
    destruct (string_dec state "greeting") as [->|N0].
    + apply process_conversation_known.
    + unfold process_conversation. rewrite dispatch_unknown; [reflexivity|].
      unfold known_states. simpl. intuition congruence.
Qed.

(** a handler body on a record whose five keys are known *)
Ltac kstep H :=
  first
    [ rewrite bind_setitem in H
    | rewrite bind_ask in H
    | rewrite bind_getitem in H
    | rewrite reply_eq in H
    | rewrite reply_manual_eq in H ];
  cbn [user_data excel sink_calls] in H;
  rewrite ?lookup_insert_eq in H;
  rewrite ?lookup_insert_ne in H by discriminate;
  repeat match type of H with
  | context [?m !! ?k] =>
      match goal with E : m !! k = _ |- _ => rewrite E in H end
  end;
  cbv beta iota in H.

Ltac nonempty_facts :=
  repeat match goal with
  | H : progress ?st _ _ |- _ =>
      unfold progress in H;
      let n := eval vm_compute in (rank st) in
      change (rank st) with n in H;
      cbn [firstn] in H
  | H : _ /\ _ |- _ => destruct H
  | H : true = true -> _ |- _ => specialize (H eq_refl)
  | H : Forall _ (_ :: _) |- _ => apply Forall_cons in H
  | H : truthy _ = Some _ |- _ => apply truthy_Some in H
  end.

Lemma format_phone_nonempty (phone country : string) :
  phone <> "" -> format_phone_with_country phone country <> "".
Proof.
  intros H. unfold format_phone_with_country.
  destruct (is_empty phone || is_empty country); [exact H|].
  destruct (startswith "+" phone); [exact H|].
  destruct (negb _); [|exact H].
  destruct (default "" (country_codes !! lower country)); [exact H|discriminate].
Qed.

Ltac establish :=
  unfold well_filled, after;
  cbn [at_state record_of awaiting new_state updated_data awaiting_confirmation];
  unfold stamped, empty_user_data;
  do 5 eexists;
  rewrite ?lookup_insert_eq; rewrite ?lookup_insert_ne by discriminate;
  repeat (split; [first [eassumption | reflexivity]|]);
  unfold progress;
  try match goal with
  | |- context [rank ?st] =>
      let n := eval vm_compute in (rank st) in
      change (rank st) with n
  end;
  cbn [firstn];
  repeat first
    [ exact I | assumption | discriminate
    | apply format_phone_nonempty; assumption
    | match goal with
      | |- _ /\ _ => split
      | |- Forall _ _ => constructor
      | |- _ = true -> _ => intros ?
      end ].

(** every branch of a handler returns, and re-establishes the invariant *)
Ltac branch H :=
  repeat kstep H; injection H as <- _; eexists; (split; [reflexivity|]);
  nonempty_facts; establish.

Section Preservation.

Variables (ud : gmap string string) (aw : bool).
Variables (name company email phone country : string).
Variables (user_input cf : string) (e : env).
Variables (file : option (list (gmap string string))).
Variables (calls : list (gmap string string)).
Variables (r : res turn) (s1 : state).

Hypothesis Hn : ud !! "name" = Some name.
Hypothesis Hc : ud !! "company" = Some company.
Hypothesis He : ud !! "email" = Some email.
Hypothesis Hp : ud !! "phone" = Some phone.
Hypothesis Hk : ud !! "country" = Some country.

Local Abbreviation values := [name; company; email; phone; country].

Lemma greeting_preserves :
  handle_greeting user_input cf aw e (State ud file calls) = (r, s1) ->
  exists t, r = Ok t /\ well_filled (after t).
Proof using Hn Hc He Hp Hk.
  intros H. unfold handle_greeting, handle_off_topic in H.
  destruct (is_off_topic_question user_input);
    [|destruct (any_in negative_words (lower user_input));
      [|destruct (any_in positive_words (lower user_input))]];
    branch H.
Qed.

Lemma name_preserves :
  progress "collect_name" aw values ->
  handle_name_collection user_input cf aw e (State ud file calls) = (r, s1) ->
  exists t, r = Ok t /\ well_filled (after t).
Proof using Hn Hc He Hp Hk.
  intros Hprog H. unfold handle_name_collection in H.
  destruct aw.
  - destruct (is_positive_response user_input);
      [|destruct (is_negative_response user_input)]; branch H.
  - destruct (truthy (extract_name user_input)) eqn:X; branch H.
Qed.

Lemma company_preserves :
  progress "collect_company" aw values ->
  handle_company_collection user_input cf aw e (State ud file calls) = (r, s1) ->
  exists t, r = Ok t /\ well_filled (after t).
Proof using Hn Hc He Hp Hk.
  intros Hprog H. unfold handle_company_collection in H.
  destruct aw.
  - destruct (is_positive_response user_input);
      [|destruct (is_negative_response user_input)]; branch H.
  - destruct (truthy (extract_company user_input)) as [v|] eqn:X;
      [destruct (1 <? String.length (strip v))%nat|]; branch H.
Qed.

Lemma email_preserves :
  progress "collect_email" aw values ->
  handle_email_collection user_input cf aw e (State ud file calls) = (r, s1) ->
  exists t, r = Ok t /\ well_filled (after t).
Proof using Hn Hc He Hp Hk.
  intros Hprog H. unfold handle_email_collection in H.
  destruct aw.
  - destruct (is_positive_response user_input);
      [|destruct (is_negative_response user_input)]; branch H.
  - destruct (truthy (extract_email user_input)) eqn:X; branch H.
Qed.

Lemma phone_preserves :
  progress "collect_phone" aw values ->
  handle_phone_collection user_input cf aw e (State ud file calls) = (r, s1) ->
  exists t, r = Ok t /\ well_filled (after t).
Proof using Hn Hc He Hp Hk.
  intros Hprog H. unfold handle_phone_collection in H.
  destruct aw.
  - destruct (is_positive_response user_input);
      [|destruct (is_negative_response user_input)]; branch H.
  - destruct (truthy (extract_phone user_input)) as [v|] eqn:X;
      [destruct (validate_phone v)|]; branch H.
Qed.

Lemma country_preserves :
  progress "collect_country" aw values ->
  handle_country_collection user_input cf aw e (State ud file calls) = (r, s1) ->
  exists t, r = Ok t /\ well_filled (after t).
Proof using Hn Hc He Hp Hk.
  intros Hprog H. unfold handle_country_collection in H.
  destruct aw.
  - destruct (is_positive_response user_input);
      [|destruct (is_negative_response user_input)]; branch H.
  - destruct (truthy (extract_country user_input)) eqn:X; branch H.
Qed.

Lemma final_preserves :
  progress "final_confirmation" aw values ->
  handle_final_confirmation user_input cf aw e (State ud file calls) = (r, s1) ->
  exists t, r = Ok t /\ well_filled (after t).
Proof using Hn Hc He Hp Hk.
  intros Hprog H. unfold handle_final_confirmation in H.
  destruct (is_positive_response user_input);
    [|destruct (is_negative_response user_input)].
  - unfold bind in H.
    destruct (save_visitor_data_spec e (State ud file calls)) as [sheet Hs].
    rewrite Hs in H. branch H.
  - unfold ret in H. branch H.
  - branch H.
Qed.

End Preservation.

Lemma turn_preserves c user_input cf e file calls t s' :
  well_filled c ->
  Route.process_conversation
    (request user_input (at_state c) (record_of c) cf (awaiting c))
    e file calls = (Route.Json t, s') ->
  well_filled (after t).
Proof.
  destruct c as [st ud aw].
  intros (name & company & email & phone & country & Hn & Hc & He & Hp & Hk & Hprog).
  cbn [at_state record_of awaiting] in *.
  unfold request, Route.process_conversation. cbn [default from_option id
    Route.req_user_input Route.req_conversation_state Route.req_user_data
    Route.req_current_field Route.req_awaiting_confirmation].
  destruct (process_conversation user_input st cf aw e (State ud file calls))
    as [r s1] eqn:P.
  assert (exists t0, r = Ok t0 /\ well_filled (after t0)) as (t0 & -> & Ht0).
  { destruct (state_cases st) as [->|[->|[->|[->|[->|[->|[_ G]]]]]]];
      [ rewrite (proj1 (proj2 (process_conversation_known user_input cf aw))) in P
      | rewrite (proj1 (proj2 (proj2 (process_conversation_known user_input cf aw)))) in P
      | rewrite (proj1 (proj2 (proj2 (proj2
                  (process_conversation_known user_input cf aw))))) in P
      | rewrite (proj1 (proj2 (proj2 (proj2 (proj2
                  (process_conversation_known user_input cf aw)))))) in P
      | rewrite (proj1 (proj2 (proj2 (proj2 (proj2 (proj2
                  (process_conversation_known user_input cf aw))))))) in P
      | rewrite (proj2 (proj2 (proj2 (proj2 (proj2 (proj2
                  (process_conversation_known user_input cf aw))))))) in P
      | rewrite G in P ];
      eauto using greeting_preserves, name_preserves, company_preserves,
        email_preserves, phone_preserves, country_preserves, final_preserves. }
  intros [= <- _]. exact Ht0.
Qed.

Lemma manual_preserves c field value t :
  well_filled c ->
  field_being_collected c field ->
  Route.handle_manual_input
    (Some (Route.ManualRequest (Some field) (Some value) (Some (record_of c))))
  = Route.Json t ->
  well_filled (after t).
Proof.
  destruct c as [st ud aw]. unfold field_being_collected.
  intros (name & company & email & phone & country & Hn & Hc & He & Hp & Hk & Hprog).
  cbn [at_state record_of awaiting] in *. intros -> H.
  unfold Route.handle_manual_input in H. cbn [default from_option id
    Route.req_field Route.req_value Route.req_manual_user_data] in H.
  destruct (Route.manual_input_body _ _ _ _) as [[t'|x] s1] eqn:B;
    [injection H as ->|discriminate H].
  unfold Route.manual_input_body in B.
  destruct (negb (is_empty field) && negb (is_empty (strip value))) eqn:G.
  - apply andb_true_iff in G as [_ G]. apply negb_true_iff, is_empty_false in G.
    rewrite bind_setitem in B. cbn [user_data excel sink_calls] in B.
    unfold Route.field_order, Route.index in B.
    repeat match type of B with
    | context [String.eqb ?a field] =>
        let Q := fresh "Q" in
        destruct (String.eqb a field) eqn:Q;
        [apply String.eqb_eq in Q; subst field|]
    end;
    cbn [fmap option_fmap option_map Nat.ltb Nat.leb List.length Nat.sub nth
         Nat.add] in B;
    try discriminate B;
    repeat kstep B; injection B as <- _; nonempty_facts; establish.
  - repeat kstep B. injection B as <- _.
    unfold well_filled, after.
    cbn [at_state record_of awaiting new_state updated_data awaiting_confirmation].
    exists name, company, email, phone, country.
    repeat (split; [assumption|]). now apply progress_not_awaiting with aw.
Qed.

Lemma reachable_well_filled c :
  reachable field_being_collected c -> well_filled c.
Proof.
  induction 1 as [|c user_input cf e file calls t s' _ IH H
                  |c field value t _ IH Hf H].
  - unfold start. establish.
  - exact (turn_preserves _ _ _ _ _ _ _ _ IH H).
  - exact (manual_preserves _ _ _ _ IH Hf H).
Qed.

Lemma reachable_said allowed user_input c :
  reachable allowed c -> reachable allowed (said user_input c).
Proof.
  intros H. unfold said.
  destruct (Route.process_conversation _ _ _ _) as [[t|x] s'] eqn:P;
    cbn [fst]; [|exact H].
  exact (reach_turn _ _ _ _ _ _ _ _ _ H P).
Qed.

Lemma reachable_typed allowed field value c :
  reachable allowed c -> allowed c field ->
  reachable allowed (typed field value c).
Proof.
  intros H Hf. unfold typed.
  destruct (Route.handle_manual_input _) as [t|x] eqn:P; [|exact H].
  exact (reach_manual _ _ _ _ _ H Hf P).
Qed.

(** C2 (as amended).  Start in [greeting] with the five fields empty and
    take any sequence of steps, each a turn of the conversation handler
    or a manual entry for the field of the collecting state the
    conversation is in.  Whenever the state returned is
    [final_confirmation], the name, company, email, phone and country of
    the record are all non-empty. *)
Theorem final_confirmation_all_filled (c : config) :
  reachable field_being_collected c ->
  at_state c = "final_confirmation" ->
  all_five_filled (record_of c).
Proof.
  intros Hr Hst. apply reachable_well_filled in Hr.
  destruct Hr as (name & company & email & phone & country
                  & Hn & Hc & He & Hp & Hk & Hprog).
  rewrite Hst in Hprog. nonempty_facts.
  unfold all_five_filled, Route.field_order, filled.
  repeat constructor; eauto.
Qed.

Lemma final_confirmation_all_filled_witness :
  at_state typed_conversation = "final_confirmation" /\
  all_five_filled (record_of typed_conversation).
Proof.
  split; [vm_compute; reflexivity|].
  apply final_confirmation_all_filled; [|vm_compute; reflexivity].
  unfold typed_conversation.
  repeat (apply reachable_typed; [|vm_compute; reflexivity]).
  apply reachable_said, reach_start.
Defined.

(** C2 as stated fails: the manual-input route does not look at the
    state, so typing the country first enters [final_confirmation] with
    the other four fields empty. *)
Lemma manual_country_skips_fields :
  reachable any_field (typed "country" "France" start) /\
  at_state (typed "country" "France" start) = "final_confirmation" /\
  record_of (typed "country" "France" start) !! "name" = Some "" /\
  record_of (typed "country" "France" start) !! "phone" = Some "".
Proof.
  split; [apply reachable_typed; [apply reach_start|exact I]|].
  repeat split; vm_compute; reflexivity.
Qed.

(** * Further properties of the code *)

(** ** Characters and strings *)

Ltac by_cases_on_char c :=
  destruct c as [[] [] [] [] [] [] [] []]; vm_compute; try reflexivity; try discriminate.

Lemma lower_char_idem (c : ascii) : lower_char (lower_char c) = lower_char c.
Proof. by_cases_on_char c. Qed.

Lemma lower_upper_char (c : ascii) : lower_char (upper_char c) = lower_char c.
Proof. by_cases_on_char c. Qed.

Lemma is_space_lower_char (c : ascii) : is_space (lower_char c) = is_space c.
Proof. by_cases_on_char c. Qed.

Lemma is_space_upper_char (c : ascii) : is_space (upper_char c) = is_space c.
Proof. by_cases_on_char c. Qed.

Lemma is_alpha_lower_char (c : ascii) : is_alpha (lower_char c) = is_alpha c.
Proof. by_cases_on_char c. Qed.

Lemma is_alpha_upper_char (c : ascii) : is_alpha (upper_char c) = is_alpha c.
Proof. by_cases_on_char c. Qed.

Lemma not_upper_lower_char (c : ascii) : is_upper (lower_char c) = false.
Proof. by_cases_on_char c. Qed.

Lemma append_cons (c : ascii) (a b : string) :
  String c a ++ b = String c (a ++ b).
Proof. reflexivity. Qed.

Lemma append_nil (b : string) : "" ++ b = b.
Proof. reflexivity. Qed.

Lemma length_smap (f : ascii -> ascii) (s : string) :
  String.length (smap f s) = String.length s.
Proof. induction s as [|c s IH]; simpl; [reflexivity|]. now rewrite IH. Qed.

Lemma length_lower (s : string) : String.length (lower s) = String.length s.
Proof. apply length_smap. Qed.

Lemma lower_idem (s : string) : lower (lower s) = lower s.
Proof.
  unfold lower. induction s as [|c s IH]; simpl; [reflexivity|].
  now rewrite lower_char_idem, IH.
Qed.

Lemma lower_app (a b : string) : lower (a ++ b) = lower a ++ lower b.
Proof.
  unfold lower. induction a as [|c a IH]; [reflexivity|].
  rewrite append_cons. simpl. now rewrite IH.
Qed.

Lemma length_title_go (b : bool) (s : string) :
  String.length (title_go b s) = String.length s.
Proof.
  revert b. induction s as [|c s IH]; intros b; simpl; [reflexivity|].
  destruct (is_lower c); [|destruct (is_upper c)]; simpl; now rewrite IH.
Qed.

Lemma length_title (s : string) : String.length (title s) = String.length s.
Proof. apply length_title_go. Qed.

Lemma lower_title_go (b : bool) (s : string) : lower (title_go b s) = lower s.
Proof.
  unfold lower. revert b. induction s as [|c s IH]; intros b; simpl; [reflexivity|].
  destruct (is_lower c); [|destruct (is_upper c)]; destruct b; simpl;
    rewrite ?lower_upper_char, ?lower_char_idem, IH; reflexivity.
Qed.

Lemma lower_title (s : string) : lower (title s) = lower s.
Proof. apply lower_title_go. Qed.

Lemma sall_app (p : ascii -> bool) (a b : string) :
  sall p (a ++ b) = sall p a && sall p b.
Proof.
  induction a as [|c a IH]; [reflexivity|].
  rewrite append_cons. simpl. now rewrite IH, andb_assoc.
Qed.

Lemma sall_impl (p q : ascii -> bool) (s : string) :
  (forall c, p c = true -> q c = true) -> sall p s = true -> sall q s = true.
Proof.
  intros H. induction s as [|c s IH]; simpl; [reflexivity|].
  intros [Hc Hs]%andb_true_iff. now rewrite (H _ Hc), IH.
Qed.

Lemma sall_smap (p : ascii -> bool) (f : ascii -> ascii) (s : string) :
  sall p (smap f s) = sall (fun c => p (f c)) s.
Proof. induction s as [|c s IH]; simpl; [reflexivity|]. now rewrite IH. Qed.

Lemma sall_title_go (p : ascii -> bool) (b : bool) (s : string) :
  (forall c, p (upper_char c) = p c) -> (forall c, p (lower_char c) = p c) ->
  sall p (title_go b s) = sall p s.
Proof.
  intros Hu Hl. revert b. induction s as [|c s IH]; intros b; simpl; [reflexivity|].
  destruct (is_lower c); [|destruct (is_upper c)]; destruct b; simpl;
    rewrite ?Hu, ?Hl, IH; reflexivity.
Qed.

Lemma append_empty_r (s : string) : s ++ "" = s.
Proof. induction s as [|c s IH]; [reflexivity|]. now rewrite append_cons, IH. Qed.

Lemma append_assoc (a b c : string) : (a ++ b) ++ c = a ++ b ++ c.
Proof. induction a as [|x a IH]; [reflexivity|]. now rewrite !append_cons, IH. Qed.

Lemma length_append (a b : string) :
  String.length (a ++ b) = (String.length a + String.length b)%nat.
Proof.
  induction a as [|x a IH]; [reflexivity|].
  rewrite append_cons. simpl. now rewrite IH.
Qed.

Lemma take_drop (n : nat) (s : string) : take n s ++ drop n s = s.
Proof.
  revert s. induction n as [|n IH]; intros [|c s]; simpl; try reflexivity.
  now rewrite append_cons, IH.
Qed.

Lemma length_take (n : nat) (s : string) :
  (n <= String.length s)%nat -> String.length (take n s) = n.
Proof.
  revert s. induction n as [|n IH]; intros [|c s]; simpl; intros H;
    try reflexivity; try lia.
  rewrite IH; [reflexivity|lia].
Qed.

(** ** The matcher is sound *)

Lemma span_bounds (p : ascii -> bool) (cap : option nat) (s : string) :
  (span p cap s <= String.length s)%nat /\
  (forall h, cap = Some h -> (span p cap s <= h)%nat).
Proof.
  revert cap. induction s as [|c s IH]; intros cap; simpl.
  - split; [lia|]. intros; lia.
  - destruct cap as [[|k]|].
    + split; [lia|]. intros; lia.
    + destruct (p c); [|split; [lia|intros; lia]].
      destruct (IH (Some k)) as [H1 H2]. split; [lia|].
      intros h [= <-]. specialize (H2 k eq_refl). lia.
    + destruct (p c); [|split; [lia|discriminate]].
      destruct (IH None) as [H1 _]. split; [lia|discriminate].
Qed.

Lemma span_take (p : ascii -> bool) (cap : option nat) (s : string) (j : nat) :
  (j <= span p cap s)%nat -> sall p (take j s) = true.
Proof.
  revert cap j. induction s as [|c s IH]; intros cap [|j] H; try reflexivity.
  simpl in H. cbn [take sall].
  destruct cap as [[|k]|]; [lia| |]; destruct (p c) eqn:E; try lia;
    cbn [andb]; eapply IH; apply le_S_n, H.
Qed.

Lemma backoff_eq (cont : string -> result) (s : string) (low k : nat) :
  backoff cont s low k =
  if (k <? low)%nat then None
  else
    match cont (drop k s) with
    | Some (gs, rest) => Some (take k s :: gs, rest)
    | None => match k with O => None | S k' => backoff cont s low k' end
    end.
Proof. destruct k; reflexivity. Qed.

Lemma backoff_sound (cont : string -> result) (s : string) (low k : nat)
    (gs : list string) (rest : string) :
  backoff cont s low k = Some (gs, rest) ->
  exists j gs', gs = take j s :: gs' /\ (low <= j <= k)%nat /\
                cont (drop j s) = Some (gs', rest).
Proof.
  induction k as [|k IH]; rewrite backoff_eq.
  - destruct (0 <? low)%nat eqn:L; [discriminate|]. apply Nat.ltb_ge in L.
    destruct (cont (drop 0 s)) as [[gs' rest']|] eqn:C; [|discriminate].
    intros [= <- <-]. exists 0%nat, gs'. repeat split; [lia|lia|exact C].
  - destruct (S k <? low)%nat eqn:L; [discriminate|]. apply Nat.ltb_ge in L.
    destruct (cont (drop (S k) s)) as [[gs' rest']|] eqn:C.
    + intros [= <- <-]. exists (S k), gs'. repeat split; [lia|lia|exact C].
    + intros H. destruct (IH H) as (j & gs' & -> & Hj & Hc).
      exists j, gs'. repeat split; [lia|lia|exact Hc].
Qed.

Lemma match_at_sound (p : pattern) (fin : string -> bool) (s : string)
    (gs : list string) (rest : string) :
  match_at p fin s = Some (gs, rest) ->
  Forall2 fits p gs /\ matched gs ++ rest = s /\ fin rest = true.
Proof.
  revert s gs. induction p as [|a p IH]; intros s gs; simpl.
  - destruct (fin s) eqn:F; [|discriminate]. intros [= <- <-].
    repeat split; [constructor|exact F].
  - intros H. apply backoff_sound in H as (j & gs' & -> & Hj & Hc).
    destruct (IH _ _ Hc) as (Hfits & Hcat & Hfin).
    destruct (span_bounds (cls a) (hi a) s) as [Hlen Hcap].
    assert (String.length (take j s) = j) as Hl by (apply length_take; lia).
    repeat split.
    + constructor; [|exact Hfits]. repeat split.
      * apply span_take with (cap := hi a). lia.
      * lia.
      * intros h Hh. specialize (Hcap h Hh). lia.
    + unfold matched in *. cbn [String.concat].
      destruct gs' as [|g gs'].
      * cbn [String.concat] in Hcat. rewrite append_nil in Hcat.
        rewrite <- (take_drop j s) at 2. now rewrite Hcat.
      * rewrite append_assoc, append_nil, Hcat. apply take_drop.
    + exact Hfin.
Qed.

(** ** Stripping, casing and title-casing *)

Lemma is_empty_smap (f : ascii -> ascii) (s : string) :
  is_empty (smap f s) = is_empty s.
Proof. destruct s; reflexivity. Qed.

Lemma is_empty_title_go (b : bool) (s : string) :
  is_empty (title_go b s) = is_empty s.
Proof.
  destruct s as [|c s]; [reflexivity|]. simpl.
  destruct (is_lower c); [|destruct (is_upper c)]; reflexivity.
Qed.

Lemma lstrip_smap (f : ascii -> ascii) (s : string) :
  (forall c, is_space (f c) = is_space c) ->
  lstrip (smap f s) = smap f (lstrip s).
Proof.
  intros H. induction s as [|c s IH]; [reflexivity|]. simpl.
  rewrite H. now destruct (is_space c).
Qed.

Lemma rstrip_smap (f : ascii -> ascii) (s : string) :
  (forall c, is_space (f c) = is_space c) ->
  rstrip (smap f s) = smap f (rstrip s).
Proof.
  intros H. induction s as [|c s IH]; [reflexivity|]. simpl.
  rewrite H, IH, is_empty_smap.
  now destruct (is_space c && is_empty (rstrip s)).
Qed.

Lemma strip_lower (s : string) : strip (lower s) = lower (strip s).
Proof.
  unfold strip, lower.
  rewrite lstrip_smap, rstrip_smap by apply is_space_lower_char. reflexivity.
Qed.

(** the character [s.title()] writes for [c] *)
Lemma title_go_cons (b : bool) (c : ascii) (s : string) :
  title_go b (String c s) =
  String (title_char b c) (title_go (is_lower c || is_upper c) s).
Proof.
  unfold title_char. simpl.
  destruct (is_lower c); [reflexivity|]. now destruct (is_upper c).
Qed.

Lemma title_char_facts (b : bool) (c : ascii) :
  is_space (title_char b c) = is_space c /\
  is_lower (title_char b c) || is_upper (title_char b c)
    = is_lower c || is_upper c /\
  title_char b (title_char b c) = title_char b c /\
  is_alpha (title_char b c) = is_alpha c.
Proof. destruct b; by_cases_on_char c; repeat split. Qed.

Lemma title_go_idem (b : bool) (s : string) :
  title_go b (title_go b s) = title_go b s.
Proof.
  revert b. induction s as [|c s IH]; intros b; [reflexivity|].
  rewrite !title_go_cons.
  destruct (title_char_facts b c) as (_ & -> & -> & _). now rewrite IH.
Qed.

Lemma title_idem (s : string) : title (title s) = title s.
Proof. apply title_go_idem. Qed.

Lemma lstrip_title (s : string) : lstrip (title s) = title (lstrip s).
Proof.
  unfold title. induction s as [|c s IH]; [reflexivity|].
  rewrite title_go_cons. cbn [lstrip].
  destruct (title_char_facts false c) as (-> & _).
  destruct (is_space c) eqn:E.
  - replace (is_lower c || is_upper c) with false; [exact IH|].
    revert E. clear. by_cases_on_char c.
  - now rewrite title_go_cons.
Qed.

Lemma rstrip_title_go (b : bool) (s : string) :
  rstrip (title_go b s) = title_go b (rstrip s).
Proof.
  revert b. induction s as [|c s IH]; intros b; [reflexivity|].
  rewrite title_go_cons. cbn [rstrip].
  destruct (title_char_facts b c) as (-> & _).
  rewrite IH, is_empty_title_go.
  destruct (is_space c && is_empty (rstrip s)); [reflexivity|].
  now rewrite title_go_cons.
Qed.

Lemma strip_title (s : string) : strip (title s) = title (strip s).
Proof. unfold strip. rewrite lstrip_title. apply rstrip_title_go. Qed.

Lemma lstrip_starts_clean (s : string) : starts_clean (lstrip s) = true.
Proof.
  induction s as [|c s IH]; [reflexivity|]. simpl.
  destruct (is_space c) eqn:E; [exact IH|]. simpl. now rewrite E.
Qed.

Lemma lstrip_clean (s : string) : starts_clean s = true -> lstrip s = s.
Proof.
  destruct s as [|c s]; [reflexivity|]. simpl.
  now destruct (is_space c).
Qed.

Lemma rstrip_starts_clean (s : string) :
  starts_clean s = true -> starts_clean (rstrip s) = true.
Proof.
  destruct s as [|c s]; [reflexivity|]. simpl.
  destruct (is_space c) eqn:E; [discriminate|]. simpl. now rewrite E.
Qed.

Lemma rstrip_idem (s : string) : rstrip (rstrip s) = rstrip s.
Proof.
  induction s as [|c s IH]; [reflexivity|]. cbn [rstrip].
  destruct (is_space c && is_empty (rstrip s)) eqn:E; [reflexivity|].
  cbn [rstrip]. now rewrite IH, E.
Qed.

Lemma strip_idem (s : string) : strip (strip s) = strip s.
Proof.
  unfold strip.
  rewrite (lstrip_clean (rstrip (lstrip s)))
    by apply rstrip_starts_clean, lstrip_starts_clean.
  apply rstrip_idem.
Qed.

(** ** What the extractors return *)

Lemma matched_cons (g : string) (gs : list string) :
  matched (g :: gs) = g ++ matched gs.
Proof.
  unfold matched. cbn [String.concat]. destruct gs as [|g' gs].
  - cbn [String.concat]. now rewrite append_empty_r.
  - now rewrite append_nil.
Qed.

Lemma dollar_rest (rest : string) :
  dollar rest = true -> rest = "" \/ rest = String (ascii_of_nat 10) "".
Proof.
  unfold dollar. intros [H|H]%orb_true_iff.
  - left. now apply is_empty_true.
  - right. now apply String.eqb_eq.
Qed.

Lemma letters_and_spaces (name : string) :
  is_match (match_at [plus letter_or_space] dollar name) = true ->
  sall letter_or_space name = true.
Proof.
  destruct (match_at _ _ name) as [[gs rest]|] eqn:E; [intros _|discriminate].
  apply match_at_sound in E as (Hfits & Hcat & Hfin).
  inversion Hfits as [|a g p' gs' [Hg _] Hnil]; subst.
  inversion Hnil; subst.
  cbn [plus cls] in Hg.
  rewrite matched_cons, append_assoc, append_nil, sall_app, Hg.
  destruct (dollar_rest _ Hfin) as [->| ->]; reflexivity.
Qed.

Lemma strip_title_strip (s : string) : strip (title (strip s)) = title (strip s).
Proof. now rewrite strip_title, strip_idem. Qed.

Lemma length_2_nonempty (s : string) :
  (String.length s <? 2)%nat = false -> is_empty s = false.
Proof. now destruct s. Qed.

(** X1.  A name returned by [extract_name] has between 2 and 50
    characters, all of them letters or white space, is title-cased and
    carries no white space at either end; the text it came from contains
    none of the bot's own questions. *)
Theorem extract_name_shape (text name : string) :
  extract_name text = Some name ->
  (2 <= String.length name <= 50)%nat
  /\ sall letter_or_space name = true
  /\ title name = name
  /\ strip name = name
  /\ any_in skip_phrases (lower text) = false.
Proof.
  unfold extract_name.
  destruct (any_in skip_phrases (lower text)); [discriminate|].
  cbv zeta.
  match goal with |- context [strip (sub ?m ?r ?t)] => set (raw := sub m r t) end.
  destruct ((String.length (strip raw) <? 2)%nat) eqn:L2; [discriminate|].
  destruct ((50 <? String.length (strip raw))%nat) eqn:L50; [discriminate|].
  destruct (is_match _) eqn:Hm; [|discriminate]. cbn [orb negb].
  intros [= <-].
  apply Nat.ltb_ge in L2, L50. rewrite length_title.
  split; [lia|]. split; [|split; [|split]].
  - unfold title. rewrite sall_title_go.
    + now apply letters_and_spaces.
    + intros c. unfold letter_or_space.
      now rewrite is_alpha_upper_char, is_space_upper_char.
    + intros c. unfold letter_or_space.
      now rewrite is_alpha_lower_char, is_space_lower_char.
  - apply title_idem.
  - apply strip_title_strip.
  - reflexivity.
Qed.

Lemma extract_name_shape_witness :
  extract_name "my name is ada lovelace" = Some "Ada Lovelace" /\
  sall letter_or_space "Ada Lovelace" = true.
Proof.
  split; [vm_compute; reflexivity|].
  apply (extract_name_shape "my name is ada lovelace" "Ada Lovelace").
  vm_compute; reflexivity.
Defined.

(** X2.  For a text of ASCII characters, a company returned by
    [extract_company] has between 2 and 100 characters, is title-cased
    and carries no white space at either end; so the second length test
    of the company handler always passes, and the handler stores the
    value and asks for its confirmation.  (Outside ASCII [str.title] can
    lengthen a text after the length was tested.) *)
Theorem extract_company_accepted (text company : string) :
  is_ascii text = true ->
  extract_company text = Some company ->
  (2 <= String.length company <= 100)%nat
  /\ title company = company
  /\ strip company = company
  /\ forall cf e s,
       handle_company_collection text cf false e s =
       (Ok (Turn ("I heard your company as " ++ company ++ ". Is that correct?")
                 "collect_company" (<["company" := company]> (user_data s))
                 "company" true None None),
        State (<["company" := company]> (user_data s)) (excel s) (sink_calls s)).
Proof.
  intros _ H. assert (H' := H). revert H'. unfold extract_company.
  destruct (is_empty text || _); [discriminate|]. cbv zeta.
  match goal with |- context [strip (sub ?m ?r ?t)] => set (raw := sub m r t) end.
  destruct ((String.length (strip raw) <? 2)%nat) eqn:L2; [discriminate|].
  destruct ((100 <? String.length (strip raw))%nat) eqn:L100; [discriminate|].
  cbn [orb]. intros [= <-].
  assert (String.length (title (strip raw)) = String.length (strip raw)) as Hlen
    by apply length_title.
  apply Nat.ltb_ge in L2, L100.
  split; [lia|]. split; [apply title_idem|]. split; [apply strip_title_strip|].
  intros cf e s. unfold handle_company_collection. rewrite H.
  unfold truthy. rewrite length_2_nonempty by (apply Nat.ltb_ge; lia).
  rewrite strip_title_strip.
  replace (1 <? String.length (title (strip raw)))%nat with true
    by (symmetry; apply Nat.ltb_lt; lia).
  repeat gstep. reflexivity.
Qed.

Lemma extract_company_accepted_witness :
  is_ascii "I work at acme corp" = true /\
  extract_company "I work at acme corp" = Some "Acme Corp" /\
  strip "Acme Corp" = "Acme Corp".
Proof.
  split; [vm_compute; reflexivity|]. split; [vm_compute; reflexivity|].
  apply (extract_company_accepted "I work at acme corp" "Acme Corp");
    vm_compute; reflexivity.
Defined.

(** X3.  For a text of ASCII characters, a country returned by
    [extract_country] has between 2 and 50 characters, is title-cased
    and carries no white space at either end, and the phone reformatting
    finds it in the table whenever its lower-case form is a key.
    (Outside ASCII [str.title] can lengthen a text after the length was
    tested.) *)
Theorem extract_country_shape (text country : string) :
  is_ascii text = true ->
  extract_country text = Some country ->
  (2 <= String.length country <= 50)%nat
  /\ title country = country
  /\ strip country = country
  /\ forall phone,
       format_phone_with_country phone country =
       format_phone_with_country phone (lower country).
Proof.
  intros _. unfold extract_country.
  destruct (is_empty text || _); [discriminate|]. cbv zeta.
  match goal with |- context [strip (sub ?m ?r ?t)] => set (raw := sub m r t) end.
  destruct ((String.length (strip raw) <? 2)%nat) eqn:L2; [discriminate|].
  destruct ((50 <? String.length (strip raw))%nat) eqn:L50; [discriminate|].
  cbn [orb]. intros [= <-].
  apply Nat.ltb_ge in L2, L50. rewrite length_title.
  split; [lia|]. split; [apply title_idem|]. split; [apply strip_title_strip|].
  intros phone. apply format_phone_case_insensitive. now rewrite lower_idem.
Qed.

Lemma extract_country_shape_witness :
  is_ascii "I am from south korea" = true /\
  extract_country "I am from south korea" = Some "South Korea" /\
  format_phone_with_country "1098765432" "South Korea" = "+821098765432".
Proof.
  split; [vm_compute; reflexivity|]. split; [vm_compute; reflexivity|].
  destruct (extract_country_shape "I am from south korea" "South Korea")
    as (_ & _ & _ & H); [vm_compute; reflexivity|vm_compute; reflexivity|].
  rewrite H. vm_compute; reflexivity.
Defined.

(** ** Letter case does not matter *)

Lemma length_strip_lower (s : string) :
  String.length (strip (lower s)) = String.length (strip s).
Proof. now rewrite strip_lower, length_lower. Qed.

Lemma extract_email_lower (text : string) :
  extract_email (lower text) = extract_email text.
Proof.
  unfold extract_email.
  now rewrite is_empty_lower, length_strip_lower, lower_idem.
Qed.

Lemma extract_phone_lower (text : string) :
  extract_phone (lower text) = extract_phone text.
Proof.
  unfold extract_phone.
  now rewrite is_empty_lower, length_strip_lower, lower_idem.
Qed.

Lemma extract_country_lower (text : string) :
  extract_country (lower text) = extract_country text.
Proof.
  unfold extract_country.
  now rewrite is_empty_lower, length_strip_lower, strip_lower, lower_idem.
Qed.

(** X4.  Two texts of ASCII characters that differ only in letter case
    are read alike by the email, phone and country extractors, by both
    intent classifiers and by the off-topic test.  (Outside ASCII
    [str.lower] can change the length that the extractors test before
    they lower-case.) *)
Theorem letter_case_ignored (text text' : string) :
  is_ascii text = true -> is_ascii text' = true ->
  lower text = lower text' ->
  extract_email text = extract_email text'
  /\ extract_phone text = extract_phone text'
  /\ extract_country text = extract_country text'
  /\ is_positive_response text = is_positive_response text'
  /\ is_negative_response text = is_negative_response text'
  /\ is_off_topic_question text = is_off_topic_question text'.
Proof.
  intros _ _ H.
  rewrite <- (extract_email_lower text), <- (extract_email_lower text').
  rewrite <- (extract_phone_lower text), <- (extract_phone_lower text').
  rewrite <- (extract_country_lower text), <- (extract_country_lower text').
  unfold is_positive_response, is_negative_response, is_off_topic_question.
  rewrite H. repeat split.
Qed.

Lemma letter_case_ignored_witness :
  (is_ascii "BOB AT YAHOO DOT COM" = true /\
   is_ascii "bob at yahoo dot com" = true /\
   lower "BOB AT YAHOO DOT COM" = lower "bob at yahoo dot com") /\
  extract_email "BOB AT YAHOO DOT COM" = extract_email "bob at yahoo dot com" /\
  is_positive_response "YES" = is_positive_response "yes".
Proof.
  split; [repeat split; vm_compute; reflexivity|].
  split; apply (letter_case_ignored "BOB AT YAHOO DOT COM" "bob at yahoo dot com")
    || apply (letter_case_ignored "YES" "yes"); vm_compute; reflexivity.
Defined.

(** ** What the email extractor returns *)

Lemma plus_matches (q : ascii -> bool) (c : ascii) (s : string) :
  q c = true -> match_at [plus q] anywhere (String c s) <> None.
Proof.
  intros Hq. cbn [match_at plus cls lo hi span]. rewrite Hq.
  rewrite backoff_eq. cbn [Nat.ltb Nat.leb anywhere]. discriminate.
Qed.

(** [re.sub(r'\s+', '', text)] leaves no white space *)
Lemma no_space_left (s : string) :
  sall (fun c => negb (is_space c))
       (sub (match_at [plus is_space] anywhere) erase s) = true.
Proof.
  unfold sub. generalize 0%nat as skip.
  induction s as [|c s IH]; intros skip; [reflexivity|].
  cbn [sub_go]. destruct skip as [|k]; [|apply IH].
  destruct (match_at [plus is_space] anywhere (String c s))
    as [[gs rest]|] eqn:E.
  - destruct (String.length (matched gs)) as [|n] eqn:L.
    + apply match_at_sound in E as (Hfits & _ & _).
      inversion Hfits as [|a g p' gs' [_ [Hlo _]] Hnil]; subst.
      inversion Hnil; subst. rewrite matched_cons, append_empty_r in L.
      cbn [plus lo] in Hlo. lia.
    + unfold erase. rewrite append_nil. apply IH.
  - cbn [sall]. rewrite IH, andb_true_r.
    destruct (is_space c) eqn:Hc; [|reflexivity].
    now destruct (plus_matches is_space c s Hc).
Qed.

Lemma findall_head (m : string -> result) (s : string) (skip : nat)
    (x : string) (xs : list string) :
  findall_go m skip s = x :: xs ->
  exists suffix gs rest, m suffix = Some (gs, rest) /\ x = matched gs.
Proof.
  revert skip. induction s as [|c s IH]; intros skip; [discriminate|].
  cbn [findall_go]. destruct skip as [|k]; [|apply IH].
  destruct (m (String c s)) as [[gs rest]|] eqn:E; [|apply IH].
  destruct (String.length (matched gs)); [apply IH|].
  intros [= <- _]. eauto.
Qed.

Lemma one_char (a : ascii) (g : string) :
  fits (one (is_char a)) g -> g = String a "".
Proof.
  intros (Hc & Hlo & Hhi). cbn [one cls lo hi] in *.
  specialize (Hhi 1%nat eq_refl).
  destruct g as [|c [|c' g]]; simpl in *; try lia.
  unfold is_char in Hc. rewrite andb_true_r in Hc.
  apply Ascii.eqb_eq in Hc. now subst.
Qed.

Lemma fits_nonempty (q : ascii -> bool) (g : string) :
  fits (one q) g -> g <> "".
Proof. intros (_ & Hlo & _) ->. cbn in Hlo. lia. Qed.

Lemma app_nonempty (a b : string) : a <> "" -> a ++ b <> "".
Proof. destruct a; [congruence|discriminate]. Qed.

Lemma class_lower_char :
  (forall c, local_char (lower_char c) = local_char c) /\
  (forall c, domain_char (lower_char c) = domain_char c) /\
  (forall c, is_alnum c = true -> local_char c = true) /\
  (forall c, is_alnum c = true -> domain_char c = true).
Proof.
  repeat split; intros c; by_cases_on_char c.
Qed.

Lemma sall_lower (p : ascii -> bool) (s : string) :
  (forall c, p (lower_char c) = p c) -> sall p (lower s) = sall p s.
Proof.
  intros H. unfold lower. rewrite sall_smap.
  induction s as [|c s IH]; simpl; [reflexivity|]. now rewrite H, IH.
Qed.

Lemma lower_is_lower_case (s : string) : sall lower_case (lower s) = true.
Proof.
  unfold lower, lower_case. induction s as [|c s IH]; simpl; [reflexivity|].
  now rewrite not_upper_lower_char, IH.
Qed.

(** the pieces of a match of the email pattern, in lower case *)
Lemma email_pieces (gs : list string) :
  Forall2 fits email_shape gs -> email_like (lower (matched gs)).
Proof.
  unfold email_shape. intros H.
  repeat match goal with
  | H : Forall2 fits (_ :: _) _ |- _ =>
      let F := fresh "F" in
      inversion H as [|? ? ? ? F ?]; subst; clear H
  | H : Forall2 fits [] _ |- _ => inversion H; subst; clear H
  end.
  rename y into g1, y0 into g2, y1 into g3, y2 into g4, y3 into g5,
         y4 into g6, y5 into g7.
  apply one_char in F1, F4. subst g3 g6.
  destruct class_lower_char as (Hl & Hd & Hal & Had).
  exists (lower (g1 ++ g2)), (lower (g4 ++ g5)), (lower g7).
  repeat split.
  - rewrite !matched_cons. unfold matched. cbn [String.concat].
    rewrite append_empty_r, !lower_app, !append_assoc. reflexivity.
  - rewrite lower_app. apply app_nonempty.
    intros E. apply (fits_nonempty _ _ F).
    destruct g1; [reflexivity|discriminate E].
  - rewrite sall_lower by exact Hl. rewrite sall_app.
    destruct F as (Hc & _), F0 as (Hc0 & _). cbn [one star cls] in *.
    now rewrite (sall_impl _ _ _ Hal Hc), Hc0.
  - rewrite lower_app. apply app_nonempty.
    intros E. apply (fits_nonempty _ _ F2).
    destruct g4; [reflexivity|discriminate E].
  - rewrite sall_lower by exact Hd. rewrite sall_app.
    destruct F2 as (Hc & _), F3 as (Hc0 & _). cbn [one star cls] in *.
    now rewrite (sall_impl _ _ _ Had Hc), Hc0.
  - rewrite length_lower. destruct F5 as (_ & Hlo & _). exact Hlo.
  - rewrite sall_lower by exact is_alpha_lower_char. now destruct F5.
  - apply lower_is_lower_case.
Qed.

(** X5.  An address returned by [extract_email] has the form
    local@domain.tld: a non-empty local part of letters, digits, ".",
    "_" and "-", a non-empty domain of letters, digits, "." and "-", and
    a top-level part of at least two letters, everything in lower
    case. *)
Theorem extract_email_shape (text email : string) :
  extract_email text = Some email -> email_like email.
Proof.
  unfold extract_email.
  destruct (is_empty text || _); [discriminate|]. cbv zeta.
  match goal with
  | |- context [sub (match_at [plus is_space] anywhere) erase ?t] =>
      generalize (no_space_left t);
      generalize (sub (match_at [plus is_space] anywhere) erase t);
      generalize t
  end.
  intros collapsed candidate Hns.
  destruct (match_at email_shape dollar candidate) as [[gs rest]|] eqn:E;
    cbn [is_match].
  - intros [= <-].
    apply match_at_sound in E as (Hfits & Hcat & Hfin).
    destruct (dollar_rest _ Hfin) as [->| ->].
    + rewrite append_empty_r in Hcat. subst candidate. now apply email_pieces.
    + rewrite <- Hcat, sall_app in Hns. apply andb_true_iff in Hns as [_ Hns].
      discriminate Hns.
  - destruct (findall _ collapsed) as [|m ms] eqn:F; [discriminate|].
    intros [= <-]. unfold findall in F.
    apply findall_head in F as (suffix & gs & rest & Hm & ->).
    apply match_at_sound in Hm as (Hfits & _ & _). now apply email_pieces.
Qed.

Lemma extract_email_shape_witness :
  extract_email "my email is bob at yahoo dot com ok"
    = Some "myemailisbob@yahoo.comok"
  /\ email_like "myemailisbob@yahoo.comok".
Proof.
  split; [vm_compute; reflexivity|].
  apply (extract_email_shape "my email is bob at yahoo dot com ok").
  vm_compute; reflexivity.
Defined.

(** ** The country table and the reformatted phone *)

Lemma country_codes_are_calling_codes (k v : string) :
  country_codes !! k = Some v -> calling_code v = true.
Proof.
  unfold country_codes. intros H. apply elem_of_list_to_map_2 in H.
  change (calling_code (snd (k, v)) = true).
  revert H. generalize (k, v). apply Forall_forall.
  repeat (constructor; [vm_compute; reflexivity|]). constructor.
Qed.

Lemma calling_code_plus (v : string) :
  calling_code v = true ->
  exists d, v = String "+" d /\ sall is_digit d = true /\
            (1 <= String.length d <= 3)%nat.
Proof.
  destruct v as [|c d]; [discriminate|]. unfold calling_code.
  intros [[[Hc Hd]%andb_true_iff H1]%andb_true_iff H3]%andb_true_iff.
  unfold is_char in Hc. apply Ascii.eqb_eq in Hc. subst c.
  apply Nat.leb_le in H1, H3. eauto.
Qed.

(** the two results of [format_phone_with_country] *)
Lemma format_phone_cases (phone country : string) :
  format_phone_with_country phone country = phone \/
  exists d, country_codes !! lower country = Some (String "+" d) /\
            sall is_digit d = true /\ (1 <= String.length d <= 3)%nat /\
            phone <> "" /\ startswith "+" phone = false /\
            format_phone_with_country phone country = String "+" (d ++ phone).
Proof.
  unfold format_phone_with_country.
  destruct (is_empty phone || is_empty country) eqn:E; [now left|].
  destruct (startswith "+" phone) eqn:P; [now left|].
  destruct (country_codes !! lower country) as [v|] eqn:L; [|now left].
  destruct (calling_code_plus v (country_codes_are_calling_codes _ _ L))
    as (d & -> & Hd & Hlen).
  right. exists d. apply orb_false_iff in E as [E _].
  repeat split; try assumption; try lia. now apply is_empty_false.
Qed.

Lemma format_phone_idem (phone country : string) :
  format_phone_with_country (format_phone_with_country phone country) country
  = format_phone_with_country phone country.
Proof.
  destruct (format_phone_cases phone country) as [H|(d & _ & _ & _ & _ & _ & H)];
    rewrite H; [exact H|]. now apply format_phone_keeps_plus.
Qed.

(** X6.  [format_phone_with_country] keeps the phone it is given as the
    end of its result and puts at most a calling code ("+" and one to
    three digits) in front; formatting the result again, for any
    country, changes it only if the first call changed nothing. *)
Theorem format_phone_once (phone country country' : string) :
  (exists code, format_phone_with_country phone country = code ++ phone /\
                (code = "" \/ calling_code code = true))
  /\ format_phone_with_country (format_phone_with_country phone country) country
     = format_phone_with_country phone country
  /\ (format_phone_with_country phone country <> phone ->
      format_phone_with_country (format_phone_with_country phone country) country'
      = format_phone_with_country phone country).
Proof.
  destruct (format_phone_cases phone country)
    as [H|(d & L & Hd & Hlen & Hne & Hp & H)].
  - rewrite H. split; [exists ""; auto|]. split; [exact H|]. congruence.
  - rewrite H. split; [|split].
    + exists (String "+" d). split; [reflexivity|]. right.
      unfold calling_code. rewrite Hd.
      destruct Hlen as [H1 H3]. apply Nat.leb_le in H1, H3.
      now rewrite H1, H3.
    + now apply format_phone_keeps_plus.
    + intros _. now apply format_phone_keeps_plus.
Qed.

Lemma format_phone_once_witness :
  format_phone_with_country (format_phone_with_country "9876543210" "India") "France"
  = format_phone_with_country "9876543210" "India".
Proof.
  apply (format_phone_once "9876543210" "India" "France").
  vm_compute. discriminate.
Defined.

Lemma validate_phone_digits (p : string) :
  validate_phone p = true -> startswith "+" p = false ->
  sall is_digit p = true /\ (8 <= String.length p <= 15)%nat.
Proof.
  unfold validate_phone. destruct (is_empty p); [discriminate|].
  intros H Hp. rewrite Hp in H.
  apply andb_true_iff in H as [[H8 H15]%andb_true_iff Hd].
  unfold isdigit in Hd. apply andb_true_iff in Hd as [_ Hd].
  apply Nat.leb_le in H8, H15. auto.
Qed.

(** X7.  A phone that passes [validate_phone], has no "+" in front and
    has at most 12 digits still passes [validate_phone] after
    [format_phone_with_country], for every country. *)
Theorem formatted_phone_still_valid (phone country : string) :
  validate_phone phone = true ->
  startswith "+" phone = false ->
  (String.length phone <= 12)%nat ->
  validate_phone (format_phone_with_country phone country) = true.
Proof.
  intros Hv Hp Hlen.
  destruct (format_phone_cases phone country)
    as [H|(d & _ & Hd & Hdl & _ & _ & H)]; rewrite H; [exact Hv|].
  destruct (validate_phone_digits _ Hv Hp) as [Hdig Hl].
  unfold validate_phone. cbn [is_empty startswith Ascii.eqb Bool.eqb andb drop].
  unfold isdigit, in_range_8_15.
  rewrite length_append, sall_app, Hd, Hdig.
  replace (is_empty (d ++ phone)) with false
    by (destruct d; [cbn in Hdl; lia|reflexivity]).
  cbn [negb andb]. rewrite andb_true_r.
  apply andb_true_iff. split; apply Nat.leb_le; lia.
Qed.

Lemma formatted_phone_still_valid_witness :
  validate_phone "9876543210" = true /\
  validate_phone (format_phone_with_country "9876543210" "Finland") = true.
Proof.
  split; [vm_compute; reflexivity|].
  apply (formatted_phone_still_valid "9876543210" "Finland");
    [vm_compute; reflexivity|vm_compute; reflexivity|vm_compute; lia].
Defined.

(** ** The classifiers *)

Lemma contains_self (x : string) : contains x x = true.
Proof. rewrite <- (append_empty_r x) at 2. apply contains_here. Qed.

Lemma mem_any_in (x : string) (xs : list string) :
  mem x xs = true -> any_in xs x = true.
Proof.
  unfold mem, any_in. induction xs as [|y xs IH]; [discriminate|]. simpl.
  intros [H|H]%orb_true_iff.
  - apply String.eqb_eq in H. subst y. now rewrite contains_self.
  - rewrite IH by exact H. apply orb_true_r.
Qed.

(** X8.  The exact-match test made first by both classifiers never
    changes their answer: a text is affirmative (negative) exactly when
    its trimmed lower-case form contains a phrase of the list. *)
Theorem exact_match_is_shortcut (text : string) :
  is_positive_response text = any_in positive_responses (strip (lower text))
  /\ is_negative_response text = any_in negative_responses (strip (lower text)).
Proof.
  unfold is_positive_response, is_negative_response. cbv zeta. split.
  - destruct (mem _ positive_responses) eqn:E; [|reflexivity].
    symmetry. now apply mem_any_in.
  - destruct (mem _ negative_responses) eqn:E; [|reflexivity].
    symmetry. now apply mem_any_in.
Qed.

(** ** What a turn does to the record, the sheet and the sink *)

(** one statement of a handler body, every outcome kept *)
Ltac xstep H :=
  first
    [ rewrite bind_setitem in H; tidy H
    | rewrite bind_ask in H; tidy H
    | rewrite bind_getitem in H; tidy H;
      lazymatch type of H with
      | match ?x with _ => _ end = _ =>
          let E := fresh "E" in destruct x eqn:E
      | _ => idtac
      end
    | rewrite reply_eq in H; tidy H
    | rewrite reply_manual_eq in H; tidy H
    | match type of H with
      | context [bind save_visitor_data _ ?e ?s] =>
          let Hs := fresh "Hs" in
          destruct (save_visitor_data_spec e s) as [? Hs];
          unfold bind in H; rewrite Hs in H; tidy H
      end
    | progress unfold ret in H ].

Ltac branches H :=
  repeat match type of H with
  | context [if ?b then _ else _] => destruct b eqn:?
  | context [match truthy ?x with _ => _ end] => destruct (truthy x) eqn:?
  end.

(** the handler that serves a state, with all its branches run *)
Ltac by_state st H :=
  let G := fresh "G" in
  let R := fresh "R" in
  destruct (state_cases st) as [->|[->|[->|[->|[->|[->|[R G]]]]]]];
  [ rewrite (proj1 (proj2 (process_conversation_known _ _ _))) in H;
    unfold handle_name_collection in H
  | rewrite (proj1 (proj2 (proj2 (process_conversation_known _ _ _)))) in H;
    unfold handle_company_collection in H
  | rewrite (proj1 (proj2 (proj2 (proj2 (process_conversation_known _ _ _))))) in H;
    unfold handle_email_collection in H
  | rewrite (proj1 (proj2 (proj2 (proj2 (proj2
              (process_conversation_known _ _ _)))))) in H;
    unfold handle_phone_collection in H
  | rewrite (proj1 (proj2 (proj2 (proj2 (proj2 (proj2
              (process_conversation_known _ _ _))))))) in H;
    unfold handle_country_collection in H
  | rewrite (proj2 (proj2 (proj2 (proj2 (proj2 (proj2
              (process_conversation_known _ _ _))))))) in H;
    unfold handle_final_confirmation in H
  | rewrite G in H; unfold handle_greeting, handle_off_topic in H ];
  branches H; repeat xstep H.

(** X9.  A handler raises only in two places: the affirmative branch of
    the name handler when the record has no "name", and the affirmative
    branch of the country handler when one of the five keys is missing.
    The sheet and the sink are untouched; the record is untouched too,
    unless the country handler had already stored the reformatted
    phone. *)
Theorem handlers_raise_on_missing_key_only
    (user_input st cf : string) (aw : bool) (e : env) (s s' : state) (x : exn) :
  process_conversation user_input st cf aw e s = (Raise x, s') ->
  aw = true /\ is_positive_response user_input = true
  /\ excel s' = excel s /\ sink_calls s' = sink_calls s
  /\ exists k, x = KeyError k /\ In k Route.field_order
       /\ user_data s !! k = None
       /\ ((st = "collect_name" /\ k = "name" /\ user_data s' = user_data s)
           \/ (st = "collect_country" /\
               (user_data s' = user_data s \/
                exists phone country,
                  user_data s !! "phone" = Some phone /\
                  user_data s !! "country" = Some country /\
                  user_data s' =
                    <["phone" := format_phone_with_country phone country]>
                      (user_data s)))).
Proof.
  intros H. destruct s as [ud file calls]. cbn [user_data excel sink_calls] in *.
  by_state st H; try discriminate H; injection H as <- <-;
    cbn [user_data excel sink_calls];
    (split; [reflexivity|]); (split; [reflexivity|]);
    (split; [reflexivity|]); (split; [reflexivity|]);
    eexists; (split; [reflexivity|]);
    (split; [unfold Route.field_order; simpl; tauto|]);
    (split; [eassumption|]);
    first [ left; repeat split; reflexivity
          | right; split; [reflexivity|]; left; reflexivity
          | right; split; [reflexivity|]; right; eauto ].
Qed.

Lemma handlers_raise_on_missing_key_only_witness :
  exists k, In k Route.field_order /\
    fst (process_conversation "yes" "collect_country" "" true (Env "" 0 Failed)
           (State (delete "email" full_record) None [])) = Raise (KeyError k).
Proof.
  destruct (process_conversation "yes" "collect_country" "" true (Env "" 0 Failed)
              (State (delete "email" full_record) None [])) as [r s'] eqn:P.
  assert (r = Raise (KeyError "email")) as -> by
    (vm_compute in P; injection P as <- _; reflexivity).
  destruct (handlers_raise_on_missing_key_only _ _ _ _ _ _ _ _ P)
    as (_ & _ & _ & _ & k & [= <-] & Hin & _).
  exists "email". split; [exact Hin|reflexivity].
Defined.

Lemma sink_effect
    (user_input st cf : string) (aw : bool) (e : env) (s s' : state)
    (r : res turn) :
  process_conversation user_input st cf aw e s = (r, s') ->
  (sink_calls s' = sink_calls s /\ excel s' = excel s)
  \/ (st = "final_confirmation" /\ is_positive_response user_input = true /\
      sink_calls s' = (sink_calls s ++ [user_data s])%list).
Proof.
  intros H. destruct s as [ud file calls]. cbn [user_data excel sink_calls] in *.
  by_state st H; injection H as <- <-; cbn [user_data excel sink_calls];
    first [ left; split; reflexivity | right; repeat split; reflexivity ].
Qed.

(** X10.  An affirmative answer in [final_confirmation] adds exactly one
    sink call, with the record it was given; every other turn (another
    state, or an answer that is not affirmative) leaves the list of sink
    calls and the sheet as they were. *)
Theorem only_final_confirmation_saves
    (user_input st cf : string) (aw : bool) (e : env) (s s' : state)
    (r : res turn) :
  process_conversation user_input st cf aw e s = (r, s') ->
  (st = "final_confirmation" -> is_positive_response user_input = true ->
   sink_calls s' = (sink_calls s ++ [user_data s])%list)
  /\ (st <> "final_confirmation" \/ is_positive_response user_input = false ->
      sink_calls s' = sink_calls s /\ excel s' = excel s).
Proof.
  intros H. split.
  - intros -> Hpos.
    rewrite (proj2 (proj2 (proj2 (proj2 (proj2 (proj2
              (process_conversation_known user_input cf aw))))))) in H.
    destruct (final_affirmative user_input cf aw e s Hpos) as [sheet Hf].
    rewrite Hf in H. now injection H as _ <-.
  - intros Hnot.
    destruct (sink_effect _ _ _ _ _ _ _ _ H) as [Hsame|(Hst & Hpos & _)];
      [exact Hsame|].
    destruct Hnot as [Hne|Hneg]; congruence.
Qed.

Lemma only_final_confirmation_saves_witness :
  sink_calls (snd (process_conversation "yes" "final_confirmation" "" false
                     (Env "" 0 Failed) (State full_record None [])))
  = [full_record]
  /\ sink_calls (snd (process_conversation "yes" "collect_phone" "" true
                        (Env "" 0 Appended) (State full_record None [])))
     = [].
Proof.
  split.
  - destruct (process_conversation "yes" "final_confirmation" "" false
                (Env "" 0 Failed) (State full_record None [])) as [r s'] eqn:P.
    destruct (only_final_confirmation_saves _ _ _ _ _ _ _ _ P) as [H _].
    cbn [snd]. rewrite H; [reflexivity|reflexivity|vm_compute; reflexivity].
  - destruct (process_conversation "yes" "collect_phone" "" true
                (Env "" 0 Appended) (State full_record None [])) as [r s'] eqn:P.
    destruct (only_final_confirmation_saves _ _ _ _ _ _ _ _ P) as [_ H].
    cbn [snd]. destruct H as [H _]; [left; discriminate|exact H].
Defined.

(** X11.  Outside [final_confirmation], a turn that returns changes no
    key of the record other than those of its state (the field being
    collected; the phone and the country in the country state; none in
    the greeting and in unknown states), and the record it returns is
    the object it was given. *)
Theorem turn_writes_own_field_only
    (user_input st cf : string) (aw : bool) (e : env) (s s' : state) (t : turn) :
  process_conversation user_input st cf aw e s = (Ok t, s') ->
  st <> "final_confirmation" ->
  user_data s' = updated_data t /\
  forall k, ~ In k (writes st) -> updated_data t !! k = user_data s !! k.
Proof.
  intros H Hst. destruct s as [ud file calls].
  cbn [user_data excel sink_calls] in *.
  by_state st H; try congruence; try discriminate H;
    injection H as <- <-; cbn [user_data updated_data];
    (split; [reflexivity|]); intros k Hk;
    try reflexivity;
    rewrite ?lookup_insert_ne; try reflexivity;
    intros <-; apply Hk; vm_compute; tauto.
Qed.

Lemma turn_writes_own_field_only_witness :
  exists t s',
    process_conversation "Acme Corp" "collect_company" "" false (Env "" 0 Failed)
      (State full_record None []) = (Ok t, s') /\
    updated_data t !! "email" = Some "ann@acme.io".
Proof.
  destruct (process_conversation "Acme Corp" "collect_company" "" false
              (Env "" 0 Failed) (State full_record None [])) as [r s'] eqn:P.
  assert (exists t, r = Ok t) as [t ->] by
    (vm_compute in P; injection P as <- _; eauto).
  exists t, s'. split; [reflexivity|].
  destruct (turn_writes_own_field_only _ _ _ _ _ _ _ _ P) as [_ H];
    [discriminate|].
  rewrite H; [reflexivity|]. vm_compute. intros [H'|[]]. discriminate H'.
Defined.

(** X12.  Every turn a handler returns is coherent: its state is one of
    the eight the program knows; its [current_field] is empty or names
    the collecting state it enters; an offer of manual input names that
    same field and never comes with a value awaiting confirmation; and a
    turn that awaits confirmation stays in the collecting state it was
    served by. *)
Theorem turns_are_coherent
    (user_input st cf : string) (aw : bool) (e : env) (s s' : state) (t : turn) :
  process_conversation user_input st cf aw e s = (Ok t, s') ->
  In (new_state t) returned_states
  /\ (current_field t = "" \/ new_state t = "collect_" ++ current_field t)
  /\ (forall b, show_manual_input t = Some b ->
        b = true /\ manual_field t = Some (current_field t) /\
        awaiting_confirmation t = false /\ new_state t = st)
  /\ (awaiting_confirmation t = true ->
        new_state t = st /\ In (current_field t) Route.field_order).
Proof.
  intros H. destruct s as [ud file calls].
  by_state st H; try discriminate H; injection H as <- _;
    cbn [new_state current_field show_manual_input manual_field
         awaiting_confirmation];
    (split; [unfold returned_states; simpl; tauto|]);
    (split; [first [left; reflexivity | right; reflexivity]|]);
    (split; [intros b Hb; try discriminate Hb; injection Hb as <-;
             repeat split; reflexivity|]);
    intros Ha; try discriminate Ha;
    (split; [reflexivity|unfold Route.field_order; simpl; tauto]).
Qed.

Lemma turns_are_coherent_witness :
  exists t s',
    process_conversation "12" "collect_phone" "" false (Env "" 0 Failed)
      (State full_record None []) = (Ok t, s') /\
    manual_field t = Some "phone" /\ awaiting_confirmation t = false.
Proof.
  destruct (process_conversation "12" "collect_phone" "" false
              (Env "" 0 Failed) (State full_record None [])) as [r s'] eqn:P.
  assert (exists t, r = Ok t /\ show_manual_input t = Some true
                    /\ current_field t = "phone") as (t & -> & Hm & Hc) by
    (vm_compute in P; injection P as <- _; eauto).
  exists t, s'. split; [reflexivity|].
  destruct (turns_are_coherent _ _ _ _ _ _ _ _ P) as (_ & _ & H & _).
  destruct (H true Hm) as (_ & H1 & H2 & _). rewrite H1, Hc. auto.
Defined.

(** ** What reaches the sink *)

Lemma well_filled_final (c : config) :
  well_filled c -> at_state c = "final_confirmation" ->
  all_five_filled (record_of c).
Proof.
  intros (name & company & email & phone & country
          & Hn & Hc & He & Hp & Hk & Hprog) Hst.
  rewrite Hst in Hprog. nonempty_facts.
  unfold all_five_filled, Route.field_order, filled.
  repeat constructor; eauto.
Qed.

(** X13.  In a conversation that starts in [greeting] with the empty
    record and uses manual entry only for the field being collected,
    every record handed to the sink has its five fields non-empty, and a
    turn hands over at most one record. *)
Theorem saved_records_are_complete (c : config) (user_input cf : string)
    (e : env) (file : option (list (gmap string string)))
    (calls : list (gmap string string)) (resp : Route.response) (s' : state) :
  reachable field_being_collected c ->
  Route.process_conversation
    (request user_input (at_state c) (record_of c) cf (awaiting c))
    e file calls = (resp, s') ->
  exists new, sink_calls s' = (calls ++ new)%list
    /\ Forall all_five_filled new /\ (List.length new <= 1)%nat.
Proof.
  intros Hr%reachable_well_filled H.
  unfold request, Route.process_conversation in H. cbn [default from_option id
    Route.req_user_input Route.req_conversation_state Route.req_user_data
    Route.req_current_field Route.req_awaiting_confirmation] in H.
  destruct (process_conversation user_input (at_state c) cf (awaiting c) e
              (State (record_of c) file calls)) as [r s1] eqn:P.
  assert (sink_calls s' = sink_calls s1) as ->.
  { destruct r as [t|x]; [now injection H as _ <-|].
    destruct s1. now injection H as _ <-. }
  destruct (sink_effect _ _ _ _ _ _ _ _ P) as [[-> _]|(Hst & _ & ->)];
    cbn [sink_calls user_data].
  - exists []. rewrite app_nil_r. repeat split; [constructor|simpl; lia].
  - exists [record_of c]. repeat split; [|simpl; lia].
    constructor; [now apply well_filled_final|constructor].
Qed.

Lemma saved_records_are_complete_witness :
  exists new,
    sink_calls (snd (Route.process_conversation
                       (request "yes" (at_state typed_conversation)
                          (record_of typed_conversation) ""
                          (awaiting typed_conversation))
                       (Env "" 0 Appended) None []))
    = ([] ++ new)%list
    /\ Forall all_five_filled new /\ (List.length new <= 1)%nat.
Proof.
  destruct (Route.process_conversation
              (request "yes" (at_state typed_conversation)
                 (record_of typed_conversation) "" (awaiting typed_conversation))
              (Env "" 0 Appended) None []) as [resp s'] eqn:P.
  cbn [snd]. refine (saved_records_are_complete _ _ _ _ _ _ _ _ _ P).
  unfold typed_conversation.
  repeat (apply reachable_typed; [|vm_compute; reflexivity]).
  apply reachable_said, reach_start.
Defined.

(** ** The manual-input route *)

Section Manual.

Variables (field value : string) (ud : gmap string string).

Local Abbreviation data :=
  (Some (Route.ManualRequest (Some field) (Some value) (Some ud))).

Lemma manual_unfold :
  Route.handle_manual_input data =
  match Route.manual_input_body field value (Env "" 0 Failed) (State ud None []) with
  | (Ok t, _) => Route.Json t
  | (Raise _, _) => Route.ServerError "Failed to process manual input"
  end.
Proof. reflexivity. Qed.

Lemma manual_blank :
  is_empty field || is_empty (strip value) = true ->
  Route.handle_manual_input data =
  Route.Json (Turn ("Please enter a valid " ++ field ++ ".")
                   ("collect_" ++ field) ud field false None None).
Proof.
  intros H. rewrite manual_unfold. unfold Route.manual_input_body.
  rewrite <- negb_orb, H. reflexivity.
Qed.

Lemma manual_next (i : nat) (next : string) :
  is_empty (strip value) = false ->
  Route.field_order !! i = Some field ->
  Route.field_order !! S i = Some next ->
  Route.handle_manual_input data =
  Route.Json (Turn ("Thank you! Now, what's your " ++ next ++ "?")
                   ("collect_" ++ next) (<[field := strip value]> ud)
                   next false None None).
Proof.
  intros Hv Hi Hn. rewrite manual_unfold. unfold Route.manual_input_body.
  unfold Route.field_order in Hi, Hn.
  destruct i as [|[|[|[|[|i]]]]]; cbn in Hi, Hn; try discriminate;
    injection Hi as <-; injection Hn as <-; rewrite Hv; reflexivity.
Qed.

Lemma manual_country :
  field = "country" -> is_empty (strip value) = false ->
  Route.handle_manual_input data =
  match ud !! "name", ud !! "company", ud !! "email", ud !! "phone" with
  | Some name, Some company, Some email, Some phone =>
      Route.Json (Turn ("Perfect! Let me confirm: Name: " ++ name
                        ++ ", Company: " ++ company ++ ", Email: " ++ email
                        ++ ", Phone: " ++ phone ++ ". Should I submit this?")
                       "final_confirmation" (<["country" := strip value]> ud)
                       "" false None None)
  | _, _, _, _ => Route.ServerError "Failed to process manual input"
  end.
Proof.
  intros Hf Hv. rewrite manual_unfold. unfold Route.manual_input_body.
  rewrite Hf, Hv. cbn [is_empty negb andb]. rewrite bind_setitem.
  cbn [user_data excel sink_calls Route.index Route.field_order String.eqb
       Ascii.eqb Bool.eqb fmap option_fmap option_map Nat.ltb Nat.leb
       List.length Nat.sub].
  rewrite !bind_getitem. cbn [user_data].
  rewrite !lookup_insert_ne by discriminate.
  destruct (ud !! "name"); [|reflexivity].
  rewrite bind_getitem. cbn [user_data]. rewrite lookup_insert_ne by discriminate.
  destruct (ud !! "company"); [|reflexivity].
  rewrite bind_getitem. cbn [user_data]. rewrite lookup_insert_ne by discriminate.
  destruct (ud !! "email"); [|reflexivity].
  rewrite bind_getitem. cbn [user_data]. rewrite lookup_insert_ne by discriminate.
  destruct (ud !! "phone"); reflexivity.
Qed.

Lemma manual_unknown_field :
  is_empty field = false -> is_empty (strip value) = false ->
  ~ In field Route.field_order ->
  Route.handle_manual_input data =
  Route.ServerError "Failed to process manual input".
Proof.
  intros Hf Hv Hin. rewrite manual_unfold. unfold Route.manual_input_body.
  rewrite Hf, Hv. cbn [negb andb]. rewrite bind_setitem.
  replace (Route.index Route.field_order field) with (@None nat); [reflexivity|].
  unfold Route.field_order, Route.index in *. simpl in Hin.
  repeat match goal with
  | |- context [String.eqb ?a field] =>
      replace (String.eqb a field) with false
        by (symmetry; apply String.eqb_neq; tauto)
  end.
  reflexivity.
Qed.

Lemma manual_cases :
  (is_empty field || is_empty (strip value) = true /\
   Route.handle_manual_input data =
   Route.Json (Turn ("Please enter a valid " ++ field ++ ".")
                    ("collect_" ++ field) ud field false None None))
  \/ (is_empty field = false /\ is_empty (strip value) = false /\
      ((exists i next,
          Route.field_order !! i = Some field /\
          Route.field_order !! S i = Some next /\
          Route.handle_manual_input data =
          Route.Json (Turn ("Thank you! Now, what's your " ++ next ++ "?")
                           ("collect_" ++ next) (<[field := strip value]> ud)
                           next false None None))
       \/ (field = "country" /\
           exists name company email phone,
             ud !! "name" = Some name /\ ud !! "company" = Some company /\
             ud !! "email" = Some email /\ ud !! "phone" = Some phone /\
             Route.handle_manual_input data =
             Route.Json (Turn ("Perfect! Let me confirm: Name: " ++ name
                               ++ ", Company: " ++ company ++ ", Email: " ++ email
                               ++ ", Phone: " ++ phone ++ ". Should I submit this?")
                              "final_confirmation"
                              (<["country" := strip value]> ud)
                              "" false None None))
       \/ (field = "country" /\
           (exists k, In k ["name"; "company"; "email"; "phone"] /\
                      ud !! k = None) /\
           Route.handle_manual_input data =
           Route.ServerError "Failed to process manual input")
       \/ (~ In field Route.field_order /\
           Route.handle_manual_input data =
           Route.ServerError "Failed to process manual input"))).
Proof.
  destruct (is_empty field || is_empty (strip value)) eqn:B.
  - left. split; [reflexivity|]. now apply manual_blank.
  - right. apply orb_false_iff in B as [Hf Hv]. split; [exact Hf|].
    split; [exact Hv|].
    destruct (in_dec string_dec field Route.field_order) as [Hin|Hin].
    + unfold Route.field_order in Hin. simpl in Hin.
      destruct Hin as [E|[E|[E|[E|[E|[]]]]]].
      * left. exists 0%nat, "company". rewrite <- E at 1.
        split; [reflexivity|]. split; [reflexivity|].
        apply (manual_next 0 "company" Hv); [now rewrite <- E|reflexivity].
      * left. exists 1%nat, "email". rewrite <- E at 1.
        split; [reflexivity|]. split; [reflexivity|].
        apply (manual_next 1 "email" Hv); [now rewrite <- E|reflexivity].
      * left. exists 2%nat, "phone". rewrite <- E at 1.
        split; [reflexivity|]. split; [reflexivity|].
        apply (manual_next 2 "phone" Hv); [now rewrite <- E|reflexivity].
      * left. exists 3%nat, "country". rewrite <- E at 1.
        split; [reflexivity|]. split; [reflexivity|].
        apply (manual_next 3 "country" Hv); [now rewrite <- E|reflexivity].
      * right. symmetry in E. rewrite (manual_country E Hv).
        destruct (ud !! "name") as [name|] eqn:En;
          [destruct (ud !! "company") as [company|] eqn:Ec;
           [destruct (ud !! "email") as [email|] eqn:Ee;
            [destruct (ud !! "phone") as [phone|] eqn:Ep|]|]|].
        -- left. split; [exact E|]. exists name, company, email, phone.
           repeat split; reflexivity.
        -- right. left. split; [exact E|]. split; [|reflexivity].
           exists "phone". split; [simpl; tauto|assumption].
        -- right. left. split; [exact E|]. split; [|reflexivity].
           exists "email". split; [simpl; tauto|assumption].
        -- right. left. split; [exact E|]. split; [|reflexivity].
           exists "company". split; [simpl; tauto|assumption].
        -- right. left. split; [exact E|]. split; [|reflexivity].
           exists "name". split; [simpl; tauto|assumption].
    + do 3 right. split; [exact Hin|]. now apply manual_unknown_field.
Qed.

End Manual.



(** X15.  A 200 answer of the manual-input route never awaits
    confirmation and offers no manual input; it leaves every key other
    than the field as it was; and the field is either untouched (blank
    value or empty field) or holds the value with the white space at its
    ends removed, which is then non-empty and one of the five fields. *)
Theorem manual_input_stores_trimmed (field value : string)
    (ud : gmap string string) (t : turn) :
  Route.handle_manual_input
    (Some (Route.ManualRequest (Some field) (Some value) (Some ud)))
  = Route.Json t ->
  awaiting_confirmation t = false /\ show_manual_input t = None
  /\ (forall k, k <> field -> updated_data t !! k = ud !! k)
  /\ (updated_data t = ud \/
      (updated_data t = <[field := strip value]> ud /\ strip value <> "" /\
       strip (strip value) = strip value /\ In field Route.field_order)).
Proof.
  destruct (manual_cases field value ud)
    as [[B H]|(Hf & Hv & [(i & next & Hi & Hn & H)
                         |[(E & n & c & m & p & Hn & Hc & He & Hp & H)
                         |[(E & Hk & H)|(Hin & H)]]])];
    rewrite H; intros [= <-]; cbn [awaiting_confirmation show_manual_input
                                   updated_data].
  - repeat split; auto.
  - repeat split; [now intros k Hk; rewrite lookup_insert_ne by congruence|].
    right. repeat split; [now apply is_empty_false|apply strip_idem|].
    apply list_elem_of_In, list_elem_of_lookup. eauto.
  - subst field.
    repeat split; [now intros k Hk; rewrite lookup_insert_ne by congruence|].
    right. repeat split; [now apply is_empty_false|apply strip_idem|].
    unfold Route.field_order. simpl. tauto.
Qed.

Lemma manual_input_stores_trimmed_witness :
  exists t,
    Route.handle_manual_input
      (Some (Route.ManualRequest (Some "company") (Some "  Acme  ")
               (Some full_record))) = Route.Json t
    /\ updated_data t !! "name" = Some "Ann".
Proof.
  destruct (Route.handle_manual_input
              (Some (Route.ManualRequest (Some "company") (Some "  Acme  ")
                       (Some full_record)))) as [t|x] eqn:P;
    [|vm_compute in P; discriminate P].
  exists t. split; [reflexivity|].
  destruct (manual_input_stores_trimmed _ _ _ _ P) as (_ & _ & H & _).
  rewrite H by discriminate. vm_compute; reflexivity.
Defined.

(** ** A failed turn in the country state *)

Lemma country_raises_after_formatting user_input cf e record file calls
    phone country k :
  is_positive_response user_input = true ->
  record !! "phone" = Some phone ->
  record !! "country" = Some country ->
  In k ["name"; "company"; "email"] -> record !! k = None ->
  exists x,
    handle_country_collection user_input cf true e (State record file calls)
    = (Raise x,
       State (<["phone" := format_phone_with_country phone country]> record)
             file calls).
Proof.
  intros Hpos Hp Hc Hin Hk.
  destruct (handle_country_collection user_input cf true e
              (State record file calls)) as [r s1] eqn:H.
  unfold handle_country_collection in H. rewrite Hpos in H.
  repeat xstep H; try congruence;
    try (injection H as <- <-; rewrite Hp in *; rewrite Hc in *;
         repeat match goal with
         | E : Some _ = Some _ |- _ => injection E as <-
         end; eauto).
  simpl in Hin. destruct Hin as [<-|[<-|[<-|[]]]]; congruence.
Qed.

(** X16.  When an affirmative answer in the country state meets a record
    that has a phone and a country but lacks the name, the company or
    the email, the route apologises and stays in [collect_country]; the
    record it returns already holds the reformatted phone, and sending
    that record again gives the same answer. *)
Theorem failed_country_turn_is_stable (user_input cf phone country k : string)
    (record : gmap string string) (e : env)
    (file : option (list (gmap string string)))
    (calls : list (gmap string string)) :
  is_positive_response user_input = true ->
  record !! "phone" = Some phone ->
  record !! "country" = Some country ->
  In k ["name"; "company"; "email"] -> record !! k = None ->
  let record' := <["phone" := format_phone_with_country phone country]> record in
  Route.process_conversation (request user_input "collect_country" record cf true)
    e file calls
  = (Route.Json (Route.apology "collect_country" record' cf),
     State record' file calls)
  /\ Route.process_conversation (request user_input "collect_country" record' cf true)
       e file calls
     = (Route.Json (Route.apology "collect_country" record' cf),
        State record' file calls).
Proof.
  intros Hpos Hp Hc Hin Hk record'.
  assert (forall rec ph, rec !! "phone" = Some ph -> rec !! "country" = Some country ->
            rec !! k = None ->
            Route.process_conversation
              (request user_input "collect_country" rec cf true) e file calls
            = (Route.Json (Route.apology "collect_country"
                 (<["phone" := format_phone_with_country ph country]> rec) cf),
               State (<["phone" := format_phone_with_country ph country]> rec)
                     file calls)) as Hturn.
  { intros rec ph Hp' Hc' Hk'.
    destruct (country_raises_after_formatting user_input cf e rec file calls
                ph country k Hpos Hp' Hc' Hin Hk') as [x Hx].
    unfold request, Route.process_conversation. cbn [default from_option id
      Route.req_user_input Route.req_conversation_state Route.req_user_data
      Route.req_current_field Route.req_awaiting_confirmation].
    rewrite (proj1 (proj2 (proj2 (proj2 (proj2 (proj2
              (process_conversation_known user_input cf true))))))).
    now rewrite Hx. }
  split; [now apply Hturn|].
  assert (k <> "phone") as Hne by
    (simpl in Hin; destruct Hin as [<-|[<-|[<-|[]]]]; discriminate).
  rewrite (Hturn record' (format_phone_with_country phone country)).
  - unfold record'.
    rewrite format_phone_idem.
    now rewrite insert_insert_eq.
  - apply lookup_insert_eq.
  - unfold record'. now rewrite lookup_insert_ne by discriminate.
  - unfold record'. now rewrite lookup_insert_ne by congruence.
Qed.

Lemma failed_country_turn_is_stable_witness :
  fst (Route.process_conversation
         (request "yes" "collect_country" (delete "email" full_record) "country" true)
         (Env "" 0 Failed) None [])
  = Route.Json (Route.apology "collect_country"
                  (<["phone" := "+339876543210"]> (delete "email" full_record))
                  "country").
Proof.
  rewrite (fun a b c d f =>
             proj1 (failed_country_turn_is_stable "yes" "country" "9876543210"
                      "France" "email" (delete "email" full_record)
                      (Env "" 0 Failed) None [] a b c d f));
    [ reflexivity | vm_compute; reflexivity | vm_compute; reflexivity
    | vm_compute; reflexivity | simpl; tauto | vm_compute; reflexivity ].
Defined.

(** ** A phone number given in digits *)

Ltac by_cases_on_char_with_hyp c :=
  destruct c as [[] [] [] [] [] [] [] []]; vm_compute; intros;
  first [reflexivity | discriminate | congruence].

Lemma digit_or_plus_plain (c : ascii) :
  digit_or_plus c = true ->
  is_space c = false /\ lower_char c = c /\ is_alpha c = false.
Proof.
  revert c. intros c. destruct c as [[] [] [] [] [] [] [] []]; vm_compute;
    intros H; try discriminate H; repeat split.
Qed.

Lemma lower_plain (s : string) : sall digit_or_plus s = true -> lower s = s.
Proof.
  unfold lower. induction s as [|c s IH]; [reflexivity|]. simpl.
  intros [Hc Hs]%andb_true_iff.
  destruct (digit_or_plus_plain c Hc) as (_ & -> & _). now rewrite IH.
Qed.

Lemma rstrip_plain (s : string) : sall digit_or_plus s = true -> rstrip s = s.
Proof.
  induction s as [|c s IH]; [reflexivity|]. cbn [sall rstrip].
  intros [Hc Hs]%andb_true_iff.
  destruct (digit_or_plus_plain c Hc) as (-> & _). now rewrite IH.
Qed.

Lemma strip_plain (s : string) : sall digit_or_plus s = true -> strip s = s.
Proof.
  intros H. unfold strip. rewrite lstrip_clean; [now apply rstrip_plain|].
  destruct s as [|c s]; [reflexivity|]. cbn [sall] in H.
  apply andb_true_iff in H as [Hc _].
  cbn [starts_clean]. now destruct (digit_or_plus_plain c Hc) as (-> & _).
Qed.

Lemma sfilter_plain (p : ascii -> bool) (s : string) :
  sall p s = true -> sfilter p s = s.
Proof.
  induction s as [|c s IH]; [reflexivity|]. simpl.
  intros [Hc Hs]%andb_true_iff. now rewrite Hc, IH.
Qed.

(** a pattern does not match where its first character does not *)
Lemma first_char_mismatch (q : ascii -> bool) (p : pattern)
    (fin : string -> bool) (c : ascii) (t : string) :
  q c = false -> match_at (one q :: p) fin (String c t) = None.
Proof.
  intros Hq. cbn [match_at one cls lo hi span]. rewrite Hq.
  now rewrite backoff_eq.
Qed.

Lemma sub_unchanged (m : string -> result) (repl : list string -> string)
    (p : ascii -> bool) (s : string) :
  (forall c t, sall p (String c t) = true -> m (String c t) = None) ->
  sall p s = true -> sub m repl s = s.
Proof.
  intros Hm. unfold sub. induction s as [|c s IH]; [reflexivity|].
  intros H. cbn [sub_go]. rewrite (Hm c s H).
  cbn [sall] in H. apply andb_true_iff in H as [_ Hs]. now rewrite IH.
Qed.

Lemma replace_unchanged (old new : string) (p : ascii -> bool) (s : string) :
  (forall c t, p c = true -> startswith old (String c t) = false) ->
  sall p s = true -> replace old new s = s.
Proof.
  intros Ho. unfold replace. induction s as [|c s IH]; [reflexivity|].
  cbn [sall replace_go]. intros [Hc Hs]%andb_true_iff.
  now rewrite (Ho c s Hc), IH.
Qed.

Lemma number_words_start_with_letters :
  Forall (fun kv => forall c t, digit_or_plus c = true ->
                      startswith (fst kv) (String c t) = false) number_words.
Proof.
  unfold number_words.
  repeat (constructor; [intros c t; by_cases_on_char_with_hyp c|]).
  constructor.
Qed.

Lemma number_words_unchanged (s : string) :
  sall digit_or_plus s = true -> apply_replacements number_words s = s.
Proof.
  intros H. unfold apply_replacements.
  induction number_words_start_with_letters as [|kv l Hkv _ IH];
    [reflexivity|].
  cbn [fold_left]. now rewrite (replace_unchanged _ _ _ _ Hkv H).
Qed.

Lemma match_at_cons (a : atom) (p : pattern) (fin : string -> bool) (s : string) :
  match_at (a :: p) fin s =
  backoff (match_at p fin) s (lo a) (span (cls a) (hi a) s).
Proof. reflexivity. Qed.

Lemma span_one (q : ascii -> bool) (c : ascii) (t : string) :
  span q (Some 1) (String c t) = if q c then 1%nat else 0%nat.
Proof. cbn [span]. destruct (q c); [|reflexivity]. now destruct t. Qed.

Lemma digit_gap_no_match (c : ascii) (t : string) :
  sall digit_or_plus (String c t) = true ->
  match_at [one is_digit; plus is_space; one is_digit] anywhere (String c t) = None.
Proof.
  cbn [sall]. intros [_ Ht]%andb_true_iff.
  destruct (is_digit c) eqn:Hd; [|now apply first_char_mismatch].
  assert (match_at [plus is_space; one is_digit] anywhere t = None) as Hgap.
  { rewrite match_at_cons. cbn [plus cls lo hi].
    replace (span is_space None t) with 0%nat; [now rewrite backoff_eq|].
    destruct t as [|c' t]; [reflexivity|]. cbn [span].
    cbn [sall] in Ht. apply andb_true_iff in Ht as [Hc' _].
    now destruct (digit_or_plus_plain c' Hc') as (-> & _). }
  rewrite match_at_cons. cbn [one cls lo hi]. rewrite span_one, Hd.
  rewrite backoff_eq. cbn [Nat.ltb Nat.leb drop]. rewrite Hgap.
  now rewrite backoff_eq.
Qed.

Lemma literal_no_match (a : ascii) (lit_rest : string) (p : pattern)
    (c : ascii) (t : string) :
  Ascii.eqb a c = false ->
  match_at (lit (String a lit_rest) ++ p)%list anywhere (String c t) = None.
Proof. intros H. cbn [lit app]. now apply first_char_mismatch. Qed.

Lemma letters_are_not_digits (c : ascii) :
  digit_or_plus c = true ->
  Ascii.eqb "p" c = false /\ Ascii.eqb "c" c = false /\
  Ascii.eqb "d" c = false /\ Ascii.eqb "t" c = false.
Proof.
  destruct c as [[] [] [] [] [] [] [] []]; vm_compute; intros H;
    try discriminate H; repeat split.
Qed.

(** X17.  A text made of 8 to 15 digits, with or without "+" signs in it
    (a leading "+" not counted), is returned unchanged by
    [extract_phone]; when all its characters after the first are digits,
    the phone handler stores it and asks for its confirmation. *)
Theorem phone_in_digits_is_kept (d : string) :
  sall digit_or_plus d = true ->
  in_range_8_15 (String.length (if startswith "+" d then drop 1 d else d)) = true ->
  extract_phone d = Some d
  /\ (sall is_digit (drop 1 d) = true ->
      forall cf e s,
        handle_phone_collection d cf false e s =
        (Ok (Turn ("I heard your phone number as " ++ d ++ ". Is that correct?")
                  "collect_phone" (<["phone" := d]> (user_data s))
                  "phone" true None None),
         State (<["phone" := d]> (user_data s)) (excel s) (sink_calls s))).
Proof.
  intros Hd Hlen.
  assert (extract_phone d = Some d) as Hx.
  { unfold extract_phone.
    rewrite (strip_plain d Hd), (lower_plain d Hd), (strip_plain d Hd).
    replace (is_empty d || (String.length d <? 3)%nat) with false.
    2:{ symmetry. apply orb_false_iff.
        unfold in_range_8_15 in Hlen.
        apply andb_true_iff in Hlen as [H8%Nat.leb_le _].
        destruct d as [|c d]; [cbn in H8; lia|]. split; [reflexivity|].
        apply Nat.ltb_ge. destruct (startswith "+" (String c d));
          cbn [drop String.length] in *; lia. }
    cbv zeta.
    rewrite (sub_unchanged _ _ digit_or_plus d) by
      (try exact Hd; intros c t [Hc _]%andb_true_iff;
       apply literal_no_match, (letters_are_not_digits c Hc)).
    rewrite (sub_unchanged _ _ digit_or_plus d) by
      (try exact Hd; intros c t [Hc _]%andb_true_iff;
       apply literal_no_match, (letters_are_not_digits c Hc)).
    rewrite (sub_unchanged _ _ digit_or_plus d) by
      (try exact Hd; intros c t [Hc _]%andb_true_iff;
       apply literal_no_match, (letters_are_not_digits c Hc)).
    rewrite (sub_unchanged _ _ digit_or_plus d) by
      (try exact Hd; intros c t [Hc _]%andb_true_iff;
       apply literal_no_match, (letters_are_not_digits c Hc)).
    rewrite (number_words_unchanged d Hd).
    rewrite (sub_unchanged _ _ digit_or_plus d) by
      (try exact Hd; apply digit_gap_no_match).
    rewrite strip_other_chars, (sfilter_plain _ _ Hd).
    destruct (startswith "+" d); now rewrite Hlen. }
  split; [exact Hx|].
  intros Hdig cf e s. unfold handle_phone_collection. rewrite Hx.
  unfold truthy.
  replace (is_empty d) with false
    by (destruct d; [destruct (startswith "+" ""); discriminate Hlen|reflexivity]).
  rewrite (validate_phone_of_shape d Hd Hlen), Hdig.
  repeat gstep. reflexivity.
Qed.

Lemma phone_in_digits_is_kept_witness :
  extract_phone "+919876543210" = Some "+919876543210".
Proof.
  apply (phone_in_digits_is_kept "+919876543210"); vm_compute; reflexivity.
Defined.

(** ** Off-topic questions and well-behaved conversations *)

(** X18.  An off-topic input in the greeting state (or in a state the
    table does not know) is answered with one of the three redirections,
    whatever index [random.choice] draws; the conversation stays in
    [greeting], awaits nothing, and the record and the sheet are left as
    they were. *)
Theorem off_topic_keeps_greeting (user_input cf : string) (aw : bool)
    (e : env) (s : state) :
  is_off_topic_question user_input = true ->
  exists response,
    In response off_topic_responses /\
    handle_greeting user_input cf aw e s =
    (Ok (Turn response "greeting" (user_data s) "" false None None), s).
Proof.
  intros H. unfold handle_greeting, handle_off_topic. rewrite H.
  rewrite bind_ask, reply_eq.
  eexists. split; [|reflexivity].
  apply nth_In. apply Nat.mod_upper_bound. discriminate.
Qed.

Lemma off_topic_keeps_greeting_witness :
  exists response,
    In response off_topic_responses /\
    handle_greeting "what's the weather" "" false (Env "" 7 Failed)
      (State empty_user_data None []) =
    (Ok (Turn response "greeting" empty_user_data "" false None None),
     State empty_user_data None []).
Proof.
  apply (off_topic_keeps_greeting "what's the weather" "" false (Env "" 7 Failed)
           (State empty_user_data None [])).
  vm_compute; reflexivity.
Defined.

Lemma handler_returns_when_well_filled c user_input cf e file calls r s1 :
  well_filled c ->
  process_conversation user_input (at_state c) cf (awaiting c) e
    (State (record_of c) file calls) = (r, s1) ->
  exists t, r = Ok t /\ well_filled (after t).
Proof.
  destruct c as [st ud aw].
  intros (name & company & email & phone & country & Hn & Hc & He & Hp & Hk & Hprog).
  cbn [at_state record_of awaiting] in *. intros P.
  destruct (state_cases st) as [->|[->|[->|[->|[->|[->|[_ G]]]]]]];
    [ rewrite (proj1 (proj2 (process_conversation_known user_input cf aw))) in P
    | rewrite (proj1 (proj2 (proj2 (process_conversation_known user_input cf aw)))) in P
    | rewrite (proj1 (proj2 (proj2 (proj2
                (process_conversation_known user_input cf aw))))) in P
    | rewrite (proj1 (proj2 (proj2 (proj2 (proj2
                (process_conversation_known user_input cf aw)))))) in P
    | rewrite (proj1 (proj2 (proj2 (proj2 (proj2 (proj2
                (process_conversation_known user_input cf aw))))))) in P
    | rewrite (proj2 (proj2 (proj2 (proj2 (proj2 (proj2
                (process_conversation_known user_input cf aw))))))) in P
    | rewrite G in P ];
    eauto using greeting_preserves, name_preserves, company_preserves,
      email_preserves, phone_preserves, country_preserves, final_preserves.
Qed.

(** X19.  In a conversation that starts in [greeting] with the empty
    record and uses manual entry only for the field being collected, no
    handler ever raises: the answer of the route is the turn of the
    handler, never the apology of its [except] branch. *)
Theorem guided_conversation_never_fails (c : config) (user_input cf : string)
    (e : env) (file : option (list (gmap string string)))
    (calls : list (gmap string string)) :
  reachable field_being_collected c ->
  exists t s',
    process_conversation user_input (at_state c) cf (awaiting c) e
      (State (record_of c) file calls) = (Ok t, s') /\
    Route.process_conversation
      (request user_input (at_state c) (record_of c) cf (awaiting c))
      e file calls = (Route.Json t, s').
Proof.
  intros Hr%reachable_well_filled.
  destruct (process_conversation user_input (at_state c) cf (awaiting c) e
              (State (record_of c) file calls)) as [r s1] eqn:P.
  destruct (handler_returns_when_well_filled _ _ _ _ _ _ _ _ Hr P)
    as (t & -> & _).
  exists t, s1. split; [reflexivity|].
  unfold request, Route.process_conversation. cbn [default from_option id
    Route.req_user_input Route.req_conversation_state Route.req_user_data
    Route.req_current_field Route.req_awaiting_confirmation].
  now rewrite P.
Qed.

Lemma guided_conversation_never_fails_witness :
  exists t s',
    process_conversation "yes" (at_state typed_conversation) ""
      (awaiting typed_conversation) (Env "" 0 Failed)
      (State (record_of typed_conversation) None []) = (Ok t, s') /\
    Route.process_conversation
      (request "yes" (at_state typed_conversation)
         (record_of typed_conversation) "" (awaiting typed_conversation))
      (Env "" 0 Failed) None [] = (Route.Json t, s').
Proof.
  apply guided_conversation_never_fails.
  unfold typed_conversation.
  repeat (apply reachable_typed; [|vm_compute; reflexivity]).
  apply reachable_said, reach_start.
Defined.
